(** * dither: palette selection, colour conversion and canvas sizing

    A shallow embedding of the two command-line entry points of the
    [dither] tool:

    - [src/index.js], which writes a PNG (module [Png] below), and
    - [src/unnamed/part_000], which writes a single-frame GIF (module [Gif]).

    Both parse their arguments with minimist, pick a palette (explicit
    [--palette] list, named preset, or the empty default), scale the image
    onto a canvas and hand the canvas to the rgbquant library.  The library
    itself, the canvas and the file system are outside the repository; they
    appear here as the fields of an environment record, and a run of
    [dither()] is the list of the calls it makes on them.

    JavaScript numbers are IEEE-754 doubles, embedded as Rocq's primitive
    floats.  JavaScript strings are embedded as [string]; every character the
    code inspects ('#', ',', hexadecimal digits) is ASCII. *)

From Stdlib Require Import ZArith List String Ascii Bool Lia QArith Qminmax Floats.
From Stdlib Require Import DecimalString Lqa Qfield.
From stdpp Require Import base gmap strings list.

Open Scope Z_scope.

(** ** JavaScript values *)

(** The values minimist stores under an option name: nothing, a boolean
    ([--flag], [--no-flag]), a number (a numeric-looking argument) or a
    string.  An option given several times yields an array, which is left
    out. *)
Inductive jsval : Type :=
| VUndefined
| VBool (b : bool)
| VNum (n : float)
| VStr (s : string).

(** ToBoolean. *)
Definition truthy (v : jsval) : bool :=
  match v with
  | VUndefined => false
  | VBool b => b
  | VNum n => negb (PrimFloat.is_zero n || PrimFloat.is_nan n)
  | VStr s => negb (String.eqb s "")
  end.

(** [a || b]. *)
Definition js_or (a b : jsval) : jsval := if truthy a then a else b.

(** An integer-valued number or NaN: what [parseInt] returns. *)
Inductive num : Type :=
| Int (z : Z)
| NaN.

(** ** Characters and digits *)

Definition charCode (c : ascii) : Z := Z.of_N (N_of_ascii c).

Definition inRange (lo hi : Z) (c : ascii) : bool :=
  (lo <=? charCode c) && (charCode c <=? hi).

(** [\d] *)
Definition isDigit (c : ascii) : bool := inRange 48 57 c.

(** [[a-f\d]] under the [i] flag *)
Definition isHexDigit (c : ascii) : bool :=
  isDigit c || inRange 97 102 c || inRange 65 70 c.

(** [[a-f\d]] without the [i] flag: the lowercase hexadecimal digits *)
Definition isLowerHexDigit (c : ascii) : bool :=
  isDigit c || inRange 97 102 c.

(** The value of a digit in any radix up to 36, as [parseInt] reads it. *)
Definition digitValue (c : ascii) : option Z :=
  if isDigit c then Some (charCode c - 48)
  else if inRange 97 122 c then Some (charCode c - 87)
  else if inRange 65 90 c then Some (charCode c - 55)
  else None.

(** The digit of a value below 16, as [Number.prototype.toString(16)]
    writes it. *)
Definition hexChar (d : Z) : ascii :=
  ascii_of_N (Z.to_N (if d <? 10 then d + 48 else d + 87)).

(** ** parseInt and toString *)

Definition isWhiteSpace (c : ascii) : bool :=
  inRange 9 13 c || (charCode c =? 32).

Fixpoint trimStart (s : string) : string :=
  match s with
  | String c rest => if isWhiteSpace c then trimStart rest else s
  | EmptyString => s
  end.

(** The longest prefix of digits below [radix], read most significant
    first; [None] when the prefix is empty. *)
Fixpoint parseDigits (radix : Z) (s : string) (acc : option Z) : option Z :=
  match s with
  | String c rest =>
      match digitValue c with
      | Some d =>
          if d <? radix
          then parseDigits radix rest (Some (radix * default 0 acc + d))
          else acc
      | None => acc
      end
  | EmptyString => acc
  end.

Definition stripHexPrefix (s : string) : option string :=
  match s with
  | String "0" (String "x" rest) => Some rest
  | String "0" (String "X" rest) => Some rest
  | _ => None
  end.

(** [parseInt(s, radix)]; [radix = 0] stands for an omitted radix.  Leading
    white space (the ASCII part of it), a sign and, for radix 16 or an
    omitted radix, a [0x] prefix are skipped; a radix outside 2..36 gives
    NaN. *)
Definition parseInt (s : string) (radix : Z) : num :=
  if negb (radix =? 0) && ((radix <? 2) || (36 <? radix)) then NaN else
  let s := trimStart s in
  let '(negative, s) :=
    match s with
    | String "-" rest => (true, rest)
    | String "+" rest => (false, rest)
    | _ => (false, s)
    end in
  let '(radix, s) :=
    if (radix =? 0) || (radix =? 16) then
      match stripHexPrefix s with
      | Some rest => (16, rest)
      | None => (if radix =? 0 then 10 else radix, s)
      end
    else (radix, s) in
  match parseDigits radix s None with
  | Some n => Int (if negative : bool then - n else n)
  | None => NaN
  end.

(** The hexadecimal digits of a positive integer, most significant first. *)
Fixpoint hexDigits (fuel : nat) (n : Z) (acc : string) : string :=
  match fuel with
  | O => acc
  | S fuel =>
      let acc := String (hexChar (n mod 16)) acc in
      if n / 16 =? 0 then acc else hexDigits fuel (n / 16) acc
  end.

(** [x.toString(16)] *)
Definition toString16 (x : num) : string :=
  match x with
  | NaN => "NaN"
  | Int z =>
      if z <? 0
      then String "-" (hexDigits (S (Z.to_nat (Z.log2 (- z)))) (- z) "")
      else hexDigits (S (Z.to_nat (Z.log2 z))) z ""
  end.

(** [String(x)] for an integer-valued number below 1e21 in magnitude (the
    exponent notation of larger numbers is not modelled) or NaN. *)
Definition toStringNum (x : num) : string :=
  match x with
  | NaN => "NaN"
  | Int z => NilZero.string_of_int (Z.to_int z)
  end.

(** [s.split(sep)] for a one-character separator. *)
Fixpoint split (sep : ascii) (s : string) : list string :=
  match s with
  | EmptyString => [EmptyString]
  | String c rest =>
      if Ascii.eqb c sep then EmptyString :: split sep rest
      else match split sep rest with
           | first :: more => String c first :: more
           | [] => [String c EmptyString]
           end
  end.

(** ** Colour conversion: [hexToRgb], [rgbToHex], [paletteToHex]

    These three functions have the same text in both entry points. *)

(** [/^#?([a-f\d]{2})([a-f\d]{2})([a-f\d]{2})$/i.exec(hex)]: the three
    captured groups, or [None] for [null].  '#' is not a hexadecimal digit, so
    giving the optional '#' back never lets a match succeed. *)
Definition hexPattern_exec (hex : string) : option (string * string * string) :=
  let body := match hex with String "#" rest => rest | _ => hex end in
  match body with
  | String c1 (String c2 (String c3 (String c4 (String c5 (String c6 EmptyString))))) =>
      if isHexDigit c1 && isHexDigit c2 && isHexDigit c3
         && isHexDigit c4 && isHexDigit c5 && isHexDigit c6
      then Some (String c1 (String c2 EmptyString),
                 String c3 (String c4 EmptyString),
                 String c5 (String c6 EmptyString))
      else None
  | _ => None
  end.

Definition hexToRgb (hex : string) : option (list num) :=
  match hexPattern_exec hex with
  | Some (g1, g2, g3) => Some [parseInt g1 16; parseInt g2 16; parseInt g3 16]
  | None => None
  end.

Definition rgbToHex (rgb : list num) : string :=
  String "#"
    (String.concat ""
       (map (fun x =>
               let x := toString16 (parseInt (toStringNum x) 0) in
               if (String.length x =? 1)%nat then String "0" x else x)
            rgb)).

Definition paletteToHex (palette : list (list num)) : list string :=
  map (fun color => rgbToHex color) palette.

(** The strings the pattern of [hexToRgb] accepts, stated on its own: six
    characters of a class, here after an optional '#'. *)
Inductive SixOf (digit : ascii -> bool) : string -> Prop :=
| SixOf_intro c1 c2 c3 c4 c5 c6 :
    digit c1 = true -> digit c2 = true -> digit c3 = true ->
    digit c4 = true -> digit c5 = true -> digit c6 = true ->
    SixOf digit
      (String c1 (String c2 (String c3 (String c4 (String c5 (String c6 EmptyString)))))).

(** [#?] then six hexadecimal digits of either case. *)
Definition HexColor (s : string) : Prop :=
  SixOf isHexDigit s \/ exists t, s = String "#" t /\ SixOf isHexDigit t.

(** '#' then six lowercase hexadecimal digits: what [rgbToHex] writes. *)
Definition LowerHexColor (s : string) : Prop :=
  exists t, s = String "#" t /\ SixOf isLowerHexDigit t.

(** ** Arithmetic of the canvas size

    The scaling arithmetic of [dither()] is written once over the operations
    it uses, so that the doubles of the program and exact rationals can both
    be put in. *)
Class Arith (N : Type) : Type := {
  ndiv : N -> N -> N;
  nmul : N -> N -> N;
  nmin : N -> N -> N
}.

(** [Math.min(a, b)]: NaN when either argument is, and -0 below +0. *)
Definition Math_min (a b : float) : float :=
  if PrimFloat.is_nan a || PrimFloat.is_nan b then nan
  else if (a <? b)%float then a
  else if (b <? a)%float then b
  else if PrimFloat.get_sign a then a else b.

#[export] Instance float_arith : Arith float :=
  {| ndiv := PrimFloat.div; nmul := PrimFloat.mul; nmin := Math_min |}.

#[export] Instance Q_arith : Arith Q :=
  {| ndiv := Qdiv; nmul := Qmult; nmin := Qmin |}.

(** Lines 87-89 of both files:
    [ratio = Math.min(modifiedWidth / image.width, modifiedHeight / image.height)],
    [width = image.width * ratio], [height = image.height * ratio]. *)
Definition scaledSize {N : Type} `{Arith N}
    (modifiedWidth modifiedHeight imageWidth imageHeight : N) : N * N :=
  let ratio := nmin (ndiv modifiedWidth imageWidth) (ndiv modifiedHeight imageHeight) in
  (nmul imageWidth ratio, nmul imageHeight ratio).

(** ** The program's surroundings *)

(** The object minimist returns, with the options the program reads. *)
Module Args.
Record t : Type := make {
  palette : jsval;
  preset : jsval;
  p : jsval;
  serpentine : jsval;
  silent : jsval;
  i : jsval;
  l : jsval;
  o : jsval;
  s : jsval;
  scale : jsval;
  v : jsval
}.

(** No option given. *)
Definition none : t :=
  make VUndefined VUndefined VUndefined VUndefined VUndefined VUndefined
       VUndefined VUndefined VUndefined VUndefined VUndefined.
End Args.

(** A decoded image: its dimensions and its RGBA bytes. *)
Module Image.
Record t : Type := make {
  width : float;
  height : float;
  data : list Z
}.
End Image.

(** The options object passed to [new RgbQuant(...)]. *)
Module Quant.
Record t : Type := make {
  boxPxls : Z;
  boxSize : list Z;
  cacheFreq : Z;
  colorDist : string;
  colors : Z;
  dithDelta : Z;
  dithKern : string;
  dithSerp : jsval;
  initColors : Z;
  method : Z;
  minHueCols : Z;
  palette : list (option (list num));
  reIndex : bool;
  useCache : bool
}.

(** What the program reads back: [quant.palette(true)] and
    [quant.reduce(canvas)]. *)
Record result : Type := mkResult {
  reducedPalette : list (list num);
  ditherResult : list Z
}.
End Quant.

(** Everything [dither()] consults outside itself.  [palettes] holds the
    own properties of the table exported by [palettes.js]: preset name to
    list of hex colours.  [rgbQuant] stands for [sample], [palette(true)] and
    [reduce] of the rgbquant library on the drawn canvas; [loadImage],
    [statSync] and [rgbQuant] answer [None] when the call throws or the
    promise is rejected.  [writeOutput] tells whether the file system takes
    the output at a path: [fs.writeFileSync] in [src/index.js], the GIF
    encoder piped into [fs.createWriteStream] in [src/unnamed/part_000].
    [statOutput] is [fs.statSync] once the output has been written. *)
Record Env : Type := mkEnv {
  palettes : gmap string (list string);
  statSync : string -> option float;
  statOutput : jsval -> option float;
  loadImage : string -> option Image.t;
  rgbQuant : Quant.t -> Image.t -> float -> float -> option Quant.result;
  writeOutput : jsval -> bool;
  numberToString : float -> string;
  stringToNumber : string -> float
}.

(** ToString of an option value, as a template literal, [+] on a string and
    a property access apply it. *)
Definition toString (e : Env) (v : jsval) : string :=
  match v with
  | VUndefined => "undefined"
  | VBool true => "true"
  | VBool false => "false"
  | VNum n => numberToString e n
  | VStr s => s
  end.

(** ToNumber, as [/] applies it. *)
Definition toNumber (e : Env) (v : jsval) : float :=
  match v with
  | VUndefined => nan
  | VBool true => 1%float
  | VBool false => 0%float
  | VNum n => n
  | VStr s => stringToNumber e s
  end.

(** [Object.keys(palettes)]; the table's own order of keys is not kept by
    the map. *)
Definition presetNames (e : Env) : list string :=
  map fst (map_to_list (palettes e)).

(** What the program prints. *)
Inductive message : Type :=
| MUsage
| MAvailablePresets
| MPresetName (name : string)
| MPresetColors (colors : list string)
| MUnknownPreset (name : string)
| MDithering (inputPath : string)
| MInputSize (bytes : float)
| MCouldNotRead (path : string)
| MOutputSize (bytes : float)
| MPercentageReduction (inputBytes outputBytes : float)
| MPalette (hex : list string)
| MDithered (outputPath : string).

(** What a run does to its surroundings, in order.  [NewRgbQuant] is the
    call of the constructor; [Reduce] stands for [sample], [palette(true)]
    and [reduce] having returned; [WriteFile] for the output having been
    written. *)
Inductive event : Type :=
| Log (m : message)
| CreateCanvas (width height : float)
| NewRgbQuant (options : Quant.t)
| Reduce
| WriteFile (outputPath : jsval) (pixels : list Z).

Inductive completion : Type :=
| Returned
| Thrown (what : string).

Record Run : Type := mkRun {
  trace : list event;
  outcome : completion
}.

(** ** Palette selection, shared pieces *)

(** The values the palette expression can take: a primitive that came
    straight from an option, an array of colours, or what a property access
    on the table finds under a name the table inherits from
    [Object.prototype] (a function such as [constructor], or the prototype
    itself under [__proto__]): an object that is not an array. *)
Inductive value : Type :=
| Prim (v : jsval)
| Arr (a : list string)
| Member (key : string).

(** ToBoolean of such a value: every object is truthy. *)
Definition present (v : value) : bool :=
  match v with
  | Prim p => truthy p
  | Arr _ | Member _ => true
  end.

(** [a ?? b] *)
Definition coalesce (a b : value) : value :=
  match a with
  | Prim VUndefined => b
  | _ => a
  end.

(** [(x && x.split(','))]: [None] when [x] is truthy and has no [split]
    (a number or [true]), which throws a TypeError. *)
Definition andSplit (x : jsval) : option value :=
  if truthy x then
    match x with
    | VStr str => Some (Arr (split "," str))
    | _ => None
    end
  else Some (Prim x).

(** The property names of [Object.prototype].  The table is an ordinary
    object, so a property access on it that finds no own property goes on
    to these. *)
Definition objectPrototypeNames : list string :=
  ["constructor"; "__defineGetter__"; "__defineSetter__"; "hasOwnProperty";
   "__lookupGetter__"; "__lookupSetter__"; "isPrototypeOf";
   "propertyIsEnumerable"; "toString"; "valueOf"; "__proto__";
   "toLocaleString"]%string.

Definition inherited (key : string) : bool :=
  existsb (String.eqb key) objectPrototypeNames.

(** [palettes[name]]: an own property, else an inherited one, else
    undefined. *)
Definition getPreset (e : Env) (name : jsval) : value :=
  let key := toString e name in
  match palettes e !! key with
  | Some preset => Arr preset
  | None => if inherited key then Member key else Prim VUndefined
  end.

(** [(name && palettes[name])] *)
Definition andLookup (e : Env) (name : jsval) : value :=
  if truthy name then getPreset e name else Prim name.

(** [!palettes[name]] *)
Definition unknownPreset (e : Env) (name : jsval) : bool :=
  negb (present (getPreset e name)).

(** Whether the output gets written at [outputPath]: a boolean (a bare
    [-o]) is no path, and [fs] throws a TypeError on it. *)
Definition writable (e : Env) (outputPath : jsval) : bool :=
  match outputPath with
  | VStr _ | VNum _ => writeOutput e outputPath
  | VBool _ | VUndefined => false
  end.

(** Lines 84-89 of both files. *)
Definition canvasSize (e : Env) (args : Args.t) (image : Image.t) : float * float :=
  let scale := js_or (Args.s args) (Args.scale args) in
  let modifiedWidth := js_or scale (VNum (Image.width image)) in
  let modifiedHeight := js_or scale (VNum (Image.height image)) in
  scaledSize (toNumber e modifiedWidth) (toNumber e modifiedHeight)
             (Image.width image) (Image.height image).

(** [rgbQuantOptions] spread under [dithSerp] and [palette]. *)
Definition rgbQuantOptions (dithSerp : jsval) (palette : list (option (list num))) : Quant.t :=
  {| Quant.boxPxls := 2;
     Quant.boxSize := [8; 8];
     Quant.cacheFreq := 10;
     Quant.colorDist := "euclidean";
     Quant.colors := 8;
     Quant.dithDelta := 0;
     Quant.dithKern := "FloydSteinberg";
     Quant.dithSerp := dithSerp;
     Quant.initColors := 4096;
     Quant.method := 2;
     Quant.minHueCols := 2000;
     Quant.palette := palette;
     Quant.reIndex := false;
     Quant.useCache := true |}.

(** What the first part of [dither()] comes to: the unknown-preset exit,
    the TypeError of [split], or the value of [palette]. *)
Inductive choice : Type :=
| UnknownPreset (name : string)
| SplitThrows
| Chosen (palette : value).

(** ** [src/index.js]: the PNG entry point *)
Module Png.

(** Lines 68-71:
    [(args.palette && args.palette.split(',')) ??
     (args.preset && palettes[args.preset]) ?? []];
    [None] is the TypeError of [split] on a non-string. *)
Definition selectPalette (e : Env) (args : Args.t) : option value :=
  match andSplit (Args.palette args) with
  | Some explicit =>
      Some (coalesce (coalesce explicit (andLookup e (Args.preset args))) (Arr []))
  | None => None
  end.

(** Lines 56-71 on their own: what the guard and the palette expression
    decide, before any file is touched. *)
Definition paletteChoice (e : Env) (args : Args.t) : choice :=
  if truthy (Args.preset args) && unknownPreset e (Args.preset args)
  then UnknownPreset (toString e (Args.preset args))
  else match selectPalette e args with
       | Some palette => Chosen palette
       | None => SplitThrows
       end.

(** The callback of [loadImage(inputPath).then], lines 84-116.  The write
    of line 108 is outside any [try]: when it throws, the callback ends
    there. *)
Definition onImage (e : Env) (args : Args.t) (palette : value)
    (inputPath : string) (image : Image.t) : Run :=
  let '(width, height) := canvasSize e args image in
  let canvas := [CreateCanvas width height] in
  match palette with
  | Prim _ | Member _ => mkRun canvas (Thrown "palette.map is not a function")
  | Arr colors =>
      let options :=
        rgbQuantOptions (js_or (Args.serpentine args) (VBool false))
                        (map (fun color => hexToRgb color) colors) in
      let quantize := canvas ++ [NewRgbQuant options] in
      match rgbQuant e options image width height with
      | None => mkRun quantize (Thrown "rgbquant")
      | Some result =>
          let outputPath :=
            js_or (Args.o args) (VStr (inputPath +:+ "-dither.png")) in
          if writable e outputPath then
            mkRun
              (quantize
               ++ [Reduce; WriteFile outputPath (Quant.ditherResult result)]
               ++ [Log (match statOutput e outputPath with
                          | Some bytes => MOutputSize bytes
                          | None => MCouldNotRead (toString e outputPath)
                          end);
                   Log (MPalette (paletteToHex (Quant.reducedPalette result)));
                   Log (MDithered (toString e outputPath))])
              Returned
          else mkRun (quantize ++ [Reduce]) (Thrown "write")
      end
  end.

(** [dither()], lines 38-119. *)
Definition dither (e : Env) (args : Args.t) : Run :=
  if truthy (Args.preset args) && unknownPreset e (Args.preset args) then
    mkRun
      (Log (MUnknownPreset (toString e (Args.preset args)))
       :: Log MAvailablePresets
       :: map (fun name => Log (MPresetName name)) (presetNames e))
      Returned
  else
    match selectPalette e args with
    | None => mkRun [] (Thrown "args.palette.split is not a function")
    | Some palette =>
        match js_or (Args.i args) (VStr "") with
        | VStr inputPath =>
            if (String.length inputPath =? 0)%nat then mkRun [] Returned
            else
              let report :=
                [Log (MDithering inputPath);
                 Log (match statSync e inputPath with
                        | Some bytes => MInputSize bytes
                        | None => MCouldNotRead inputPath
                        end)] in
              match loadImage e inputPath with
              | None => mkRun report (Thrown "loadImage")
              | Some image =>
                  let run := onImage e args palette inputPath image in
                  mkRun (report ++ trace run) (outcome run)
              end
        | _ => mkRun [] Returned
        end
    end.

(** The top level, lines 24-36. *)
Definition main (e : Env) (args : Args.t) : Run :=
  if truthy (Args.l args) then
    mkRun
      (Log MAvailablePresets
       :: flat_map
            (fun name =>
               Log (MPresetName name)
               :: (if truthy (Args.v args)
                   then [Log (MPresetColors (default [] (palettes e !! name)))]
                   else []))
            (presetNames e))
      Returned
  else if truthy (Args.i args) then dither e args
  else mkRun [Log MUsage] Returned.

End Png.

(** ** [src/unnamed/part_000]: the GIF entry point *)
Module Gif.

(** [status(text)]: printed unless [silent]. *)
Definition status (silent : jsval) (m : message) : list event :=
  if truthy silent then [] else [Log m].

(** [listPresets()], lines 137-145. *)
Definition listPresets (e : Env) (args : Args.t) (silent : jsval) : list event :=
  status silent MAvailablePresets
  ++ flat_map
       (fun name =>
          status silent (MPresetName name)
          ++ (if truthy (Args.v args)
              then status silent (MPresetColors (default [] (palettes e !! name)))
              else []))
       (presetNames e).

(** Line 56: [presetName = args.preset || args.p]. *)
Definition presetName (args : Args.t) : jsval :=
  js_or (Args.preset args) (Args.p args).

(** Lines 66-69:
    [(args.palette && args.palette.split(',')) ??
     (presetName && palettes[presetName]) ?? []]. *)
Definition selectPalette (e : Env) (args : Args.t) : option value :=
  match andSplit (Args.palette args) with
  | Some explicit =>
      Some (coalesce (coalesce explicit (andLookup e (presetName args))) (Arr []))
  | None => None
  end.

(** Lines 56-69 on their own: what the guard and the palette expression
    decide, before any file is touched. *)
Definition paletteChoice (e : Env) (args : Args.t) : choice :=
  if truthy (presetName args) && unknownPreset e (presetName args)
  then UnknownPreset (toString e (presetName args))
  else match selectPalette e args with
       | Some palette => Chosen palette
       | None => SplitThrows
       end.

(** The callback of [loadImage(inputPath).then], lines 84-133; the
    status lines are printed from a timer one second later.  Nothing
    handles a failure of the encoder or of the stream it is piped into
    (lines 110-119): the process ends on it before the timer fires. *)
Definition onImage (e : Env) (args : Args.t) (silent : jsval) (palette : value)
    (inputPath : string) (inputBytes : float) (image : Image.t) : Run :=
  let '(width, height) := canvasSize e args image in
  let canvas := [CreateCanvas width height] in
  match palette with
  | Prim _ | Member _ => mkRun canvas (Thrown "palette.map is not a function")
  | Arr colors =>
      let options :=
        rgbQuantOptions (js_or (Args.serpentine args) (VBool false))
                        (map (fun color => hexToRgb color) colors) in
      let quantize := canvas ++ [NewRgbQuant options] in
      match rgbQuant e options image width height with
      | None => mkRun quantize (Thrown "rgbquant")
      | Some result =>
          let outputPath :=
            js_or (Args.o args) (VStr (inputPath +:+ "-dither.gif")) in
          if writable e outputPath then
            mkRun
              (quantize
               ++ [Reduce; WriteFile outputPath (Quant.ditherResult result)]
               ++ match statOutput e outputPath with
                  | Some outputBytes =>
                      status silent (MOutputSize outputBytes)
                      ++ status silent (MPercentageReduction inputBytes outputBytes)
                  | None => status silent (MCouldNotRead (toString e outputPath))
                  end
               ++ status silent (MPalette (paletteToHex (Quant.reducedPalette result)))
               ++ status silent (MDithered (toString e outputPath)))
              Returned
          else mkRun (quantize ++ [Reduce]) (Thrown "write")
      end
  end.

(** [dither()], lines 36-135. *)
Definition dither (e : Env) (args : Args.t) : Run :=
  let silent := js_or (Args.silent args) (VBool false) in
  let presetName := presetName args in
  if truthy presetName && unknownPreset e presetName then
    mkRun
      (status silent (MUnknownPreset (toString e presetName))
       ++ listPresets e args silent)
      Returned
  else
    match selectPalette e args with
    | None => mkRun [] (Thrown "args.palette.split is not a function")
    | Some palette =>
        match js_or (Args.i args) (VStr "") with
        | VStr inputPath =>
            if (String.length inputPath =? 0)%nat then mkRun [] Returned
            else
              let announce := status silent (MDithering inputPath) in
              match statSync e inputPath with
              | None =>
                  mkRun (announce ++ status silent (MCouldNotRead inputPath)) Returned
              | Some inputBytes =>
                  let report := announce ++ status silent (MInputSize inputBytes) in
                  match loadImage e inputPath with
                  | None => mkRun report (Thrown "loadImage")
                  | Some image =>
                      let run :=
                        onImage e args silent palette inputPath inputBytes image in
                      mkRun (report ++ trace run) (outcome run)
                  end
              end
        | _ => mkRun [] Returned
        end
    end.

(** The top level, lines 26-34; [silent] is still [false] there. *)
Definition main (e : Env) (args : Args.t) : Run :=
  if truthy (Args.l args) then mkRun (listPresets e args (VBool false)) Returned
  else if truthy (Args.i args) then dither e args
  else mkRun (status (VBool false) MUsage) Returned.

End Gif.

(** ** Reading a run *)

(** The run got as far as the quantizer: it built an [RgbQuant] from its
    options. *)
Definition quantizes (r : Run) : bool :=
  existsb (fun ev => match ev with NewRgbQuant _ => true | _ => false end) (trace r).

(** The quantizer returned the reduced image. *)
Definition dithers (r : Run) : bool :=
  existsb (fun ev => match ev with Reduce => true | _ => false end) (trace r).

(** The run wrote an output image. *)
Definition writes (r : Run) : bool :=
  existsb (fun ev => match ev with WriteFile _ _ => true | _ => false end) (trace r).

(** The palette option of the [RgbQuant] the run built, if it built one. *)
Definition usedPalette (r : Run) : option (list (option (list num))) :=
  head (omap (fun ev => match ev with
                        | NewRgbQuant options => Some (Quant.palette options)
                        | _ => None
                        end) (trace r)).

(** The canvas the run created, if it created one. *)
Definition canvasOf (r : Run) : option (float * float) :=
  head (omap (fun ev => match ev with
                        | CreateCanvas width height => Some (width, height)
                        | _ => None
                        end) (trace r)).

(** The run printed [m]. *)
Definition prints (m : message) (r : Run) : Prop := In (Log m) (trace r).

(** ** The error-diffusion ditherer of the specification

    The repository hands quantization and dithering to the rgbquant
    library, whose code is not part of it.  The specification describes the
    ditherer on its own (sections 3 and 4.2); this module follows that
    description. *)
Module Ditherer.

(** Modelled from the spec: the Pixel of section 3, four 8-bit channels
    (the ditherer itself is rgbquant's and absent from the sources). *)
Record Pixel : Type := mkPixel {
  red : Z;
  green : Z;
  blue : Z;
  alpha : Z
}.

(** Modelled from the spec: the Image Buffer of section 3, a row-major
    grid of [width * height] pixels. *)
Record ImageBuffer : Type := mkImage {
  width : nat;
  height : nat;
  pixels : list Pixel
}.

(** Modelled from the spec: the error kinds of section 7. *)
Inductive Error : Type :=
| InvalidColorCount
| InvalidPaletteEntry
| EmptyPalette
| DimensionMismatch.

Inductive result (A : Type) : Type :=
| Ok (a : A)
| Fail (e : Error).
Arguments Ok {A} a.
Arguments Fail {A} e.

(** Modelled from the spec: one entry of a kernel's weight table (step
    3f): a neighbour [ahead] columns further in scan direction and [below]
    rows down, and the share of the error it receives. *)
Record Tap : Type := mkTap {
  ahead : Z;
  below : Z;
  weight : float
}.

(** Modelled from the spec: the classic Floyd-Steinberg table of step 3f,
    7/16 ahead, 3/16 below-behind, 5/16 below, 1/16 below-ahead. *)
Definition FloydSteinberg : list Tap :=
  [mkTap 1 0 0.4375; mkTap (-1) 1 0.1875; mkTap 0 1 0.3125; mkTap 1 1 0.0625].

(** Modelled from the spec: a floating-point RGB triple, the type of a
    working colour and of an entry of the Error Accumulator (section 3). *)
Definition Color : Type := float * float * float.

Definition byteToFloat (z : Z) : float := PrimFloat.of_uint63 (Uint63.of_Z z).

Definition toColor (p : Pixel) : Color :=
  (byteToFloat (red p), byteToFloat (green p), byteToFloat (blue p)).

Definition addColor (a b : Color) : Color :=
  let '(ar, ag, ab) := a in let '(br, bg, bb) := b in
  (ar + br, ag + bg, ab + bb)%float.

Definition subColor (a b : Color) : Color :=
  let '(ar, ag, ab) := a in let '(br, bg, bb) := b in
  (ar - br, ag - bg, ab - bb)%float.

Definition scaleColor (a : Color) (k : float) : Color :=
  let '(ar, ag, ab) := a in (ar * k, ag * k, ab * k)%float.

(** Modelled from the spec: step 3b, each channel clamped to [0, 255]. *)
Definition clamp (x : float) : float :=
  if (x <? 0)%float then 0%float
  else if (255 <? x)%float then 255%float
  else x.

Definition clampColor (a : Color) : Color :=
  let '(ar, ag, ab) := a in (clamp ar, clamp ag, clamp ab).

(** Modelled from the spec: the rounding of the numeric semantics, where
    "round-half-to-even or truncate" is left to choose; truncation is
    chosen here. *)
Definition truncate (x : float) : Z :=
  match Prim2SF x with
  | S754_finite negative m e =>
      let magnitude := Z.shiftl (Z.pos m) e in
      if negative then - magnitude else magnitude
  | _ => 0
  end.

Definition roundColor (a : Color) : Z * Z * Z :=
  let '(ar, ag, ab) := a in (truncate ar, truncate ag, truncate ab).

(** Modelled from the spec: step 3c, squared Euclidean distance in RGB. *)
Definition distance (c : Z * Z * Z) (q : Pixel) : Z :=
  let '(r, g, b) := c in
  (r - red q) * (r - red q) + (g - green q) * (g - green q)
  + (b - blue q) * (b - blue q).

(** Modelled from the spec: step 3c, the nearest palette entry, the
    lowest index winning a tie: a later entry replaces the best so far
    only when strictly nearer. *)
Fixpoint nearestFrom (c : Z * Z * Z) (best : Pixel) (rest : list Pixel) : Pixel :=
  match rest with
  | [] => best
  | q :: rest =>
      nearestFrom c (if distance c q <? distance c best then q else best) rest
  end.

(** Modelled from the spec: step 2, the columns of row [y] in traversal
    order, and the direction of travel, [1] for left to right and [-1] for
    right to left. *)
Definition rowOrder (w : nat) (serpentine : bool) (y : nat) : list nat :=
  if serpentine && Nat.odd y then rev (seq 0 w) else seq 0 w.

Definition direction (serpentine : bool) (y : nat) : Z :=
  if serpentine && Nat.odd y then -1 else 1.

(** Modelled from the spec: steps 3f and 3g for one tap.  The neighbour
    of [(x, y)] the tap points to, mirrored with the scan direction, or
    [None] when it lies outside the image. *)
Definition target (w h : nat) (dir : Z) (x y : nat) (t : Tap) : option nat :=
  let nx := Z.of_nat x + dir * ahead t in
  let ny := Z.of_nat y + below t in
  if (0 <=? nx) && (nx <? Z.of_nat w) && (0 <=? ny) && (ny <? Z.of_nat h)
  then Some (Z.to_nat (ny * Z.of_nat w + nx))
  else None.

(** Modelled from the spec: the neighbours that receive a share of the
    error of [(x, y)] (steps 3f and 3g). *)
Definition targets (w h : nat) (kernel : list Tap) (dir : Z) (x y : nat) : list nat :=
  omap (target w h dir x y) kernel.

Definition diffuse (w h : nat) (dir : Z) (x y : nat) (err : Color)
    (acc : list Color) (t : Tap) : list Color :=
  match target w h dir x y t with
  | Some i => alter (fun a => addColor a (scaleColor err (weight t))) i acc
  | None => acc
  end.

(** Modelled from the spec: the output buffer being filled and the Error
    Accumulator. *)
Definition State : Type := list Pixel * list Color.

(** Modelled from the spec: step 3 for the pixel at [(x, y)]. *)
Definition stepPixel (image : ImageBuffer) (best : Pixel) (rest : list Pixel)
    (kernel : list Tap) (dir : Z) (y : nat) (st : State) (x : nat) : State :=
  let '(out, acc) := st in
  let i := (y * width image + x)%nat in
  match pixels image !! i, acc !! i with
  | Some source, Some carried =>
      let working := clampColor (addColor (toColor source) carried) in
      let chosen := nearestFrom (roundColor working) best rest in
      let err := subColor working (toColor chosen) in
      (<[i := mkPixel (red chosen) (green chosen) (blue chosen) (alpha source)]> out,
       fold_left (diffuse (width image) (height image) dir x y err) kernel acc)
  | _, _ => st
  end.

Definition stepRow (image : ImageBuffer) (best : Pixel) (rest : list Pixel)
    (kernel : list Tap) (serpentine : bool) (st : State) (y : nat) : State :=
  fold_left (stepPixel image best rest kernel (direction serpentine y) y)
            (rowOrder (width image) serpentine y) st.

(** Modelled from the spec: steps 1 to 4, the whole pass.  The
    accumulator starts at zero; the output starts as a copy of the source
    and every position is overwritten. *)
Definition pass (image : ImageBuffer) (best : Pixel) (rest : list Pixel)
    (kernel : list Tap) (serpentine : bool) : State :=
  fold_left (stepRow image best rest kernel serpentine)
            (seq 0 (height image))
            (pixels image,
             replicate (width image * height image) (0%float, 0%float, 0%float)).

(** Modelled from the spec: [dither(image, palette, kernel, serpentine)]
    of section 4.2 with its failure conditions; rgbquant's own ditherer is
    absent from the sources.  Dimensions are natural numbers, so the
    non-finite case does not arise; a pixel list that is not [width * height]
    long counts as invalid dimensions. *)
Definition dither (image : ImageBuffer) (palette : list Pixel)
    (kernel : list Tap) (serpentine : bool) : result ImageBuffer :=
  match palette with
  | [] => Fail EmptyPalette
  | best :: rest =>
      if (width image =? 0)%nat || (height image =? 0)%nat
         || negb (length (pixels image) =? width image * height image)%nat
      then Fail DimensionMismatch
      else Ok (mkImage (width image) (height image)
                       (fst (pass image best rest kernel serpentine)))
  end.

(** A pixel carries one of the palette's colours. *)
Definition inPalette (palette : list Pixel) (p : Pixel) : Prop :=
  exists q, In q palette /\ red p = red q /\ green p = green q /\ blue p = blue q.

(** Every channel is an 8-bit value. *)
Definition wellFormed (p : Pixel) : Prop :=
  0 <= red p <= 255 /\ 0 <= green p <= 255 /\ 0 <= blue p <= 255.

(** No tap points at the pixel being processed: a kernel spreads the
    error over neighbours. *)
Definition spreads (kernel : list Tap) : Prop :=
  Forall (fun t => ahead t <> 0 \/ below t <> 0) kernel.

(** The RGB channels of a pixel, as the nearest-entry search takes
    them. *)
Definition rgb (p : Pixel) : Z * Z * Z := (red p, green p, blue p).

(** A palette entry's colour under the alpha of the source pixel: what
    step 3d writes. *)
Definition recolor (q source : Pixel) : Pixel :=
  mkPixel (red q) (green q) (blue q) (alpha source).

(** The state midway through a pass over [n] pixels: both buffers have
    their full length, and the positions in [done] hold palette colours. *)
Definition filled (palette : list Pixel) (n : nat) (done : nat -> Prop)
    (st : State) : Prop :=
  length (fst st) = n /\ length (snd st) = n
  /\ forall i p, done i -> fst st !! i = Some p -> inPalette palette p.

End Ditherer.

(** ** Sample surroundings, for running the model *)

(** A table with one preset. *)
Definition samplePalettes : gmap string (list string) :=
  {[ "gameboy"%string := ["#0f380f"; "#306230"; "#8bac0f"; "#9bbc0f"]%string ]}.

(** An image of the given size, all black and opaque. *)
Definition sampleImage (width height : float) (pixelCount : nat) : Image.t :=
  Image.make width height (concat (replicate pixelCount [0; 0; 0; 255])).

(** Every file is 1024 bytes long and decodes to a 26 by 13 image; the
    quantizer answers with a two-colour palette and no pixels; every
    path can be written to. *)
Definition sampleEnv : Env :=
  {| palettes := samplePalettes;
     statSync := fun _ => Some 1024%float;
     statOutput := fun _ => Some 512%float;
     loadImage := fun _ => Some (sampleImage 26 13 338);
     rgbQuant := fun _ _ _ _ =>
       Some (Quant.mkResult [[Int 0; Int 0; Int 0]; [Int 255; Int 255; Int 255]] []);
     writeOutput := fun _ => true;
     numberToString := fun _ => "0"%string;
     stringToNumber := fun _ => nan |}.

(** The same, but the decoded image has no columns. *)
Definition emptyImageEnv : Env :=
  {| palettes := samplePalettes;
     statSync := fun _ => Some 1024%float;
     statOutput := fun _ => Some 512%float;
     loadImage := fun _ => Some (sampleImage 0 13 0);
     rgbQuant := fun _ _ _ _ => Some (Quant.mkResult [] []);
     writeOutput := fun _ => true;
     numberToString := fun _ => "0"%string;
     stringToNumber := fun _ => nan |}.

(** [dither -i in.png] with further options. *)
Definition inputOnly : Args.t :=
  Args.make VUndefined VUndefined VUndefined VUndefined VUndefined
            (VStr "in.png") VUndefined VUndefined VUndefined VUndefined VUndefined.

Definition withPalette (palette : string) (args : Args.t) : Args.t :=
  Args.make (VStr palette) (Args.preset args) (Args.p args) (Args.serpentine args)
            (Args.silent args) (Args.i args) (Args.l args) (Args.o args)
            (Args.s args) (Args.scale args) (Args.v args).

Definition withPreset (preset : string) (args : Args.t) : Args.t :=
  Args.make (Args.palette args) (VStr preset) (Args.p args) (Args.serpentine args)
            (Args.silent args) (Args.i args) (Args.l args) (Args.o args)
            (Args.s args) (Args.scale args) (Args.v args).

Definition withP (p : string) (args : Args.t) : Args.t :=
  Args.make (Args.palette args) (Args.preset args) (VStr p) (Args.serpentine args)
            (Args.silent args) (Args.i args) (Args.l args) (Args.o args)
            (Args.s args) (Args.scale args) (Args.v args).

Definition withSilent (args : Args.t) : Args.t :=
  Args.make (Args.palette args) (Args.preset args) (Args.p args) (Args.serpentine args)
            (VBool true) (Args.i args) (Args.l args) (Args.o args)
            (Args.s args) (Args.scale args) (Args.v args).

(** The same arguments with a value for [-o]. *)
Definition withOutput (o : jsval) (args : Args.t) : Args.t :=
  Args.make (Args.palette args) (Args.preset args) (Args.p args) (Args.serpentine args)
            (Args.silent args) (Args.i args) (Args.l args) o
            (Args.s args) (Args.scale args) (Args.v args).

Definition withScale (scale : float) (args : Args.t) : Args.t :=
  Args.make (Args.palette args) (Args.preset args) (Args.p args) (Args.serpentine args)
            (Args.silent args) (Args.i args) (Args.l args) (Args.o args)
            (VNum scale) (Args.scale args) (Args.v args).

(** An event that only prints. *)
Definition isPrint (ev : event) : bool :=
  match ev with
  | Log _ => true
  | _ => false
  end.

(** How [hexToRgb] treats an entry of a colour list: a well-formed entry
    becomes a triple of bytes, any other entry becomes null. *)
Definition conversionOf (entry : string) (converted : option (list num)) : Prop :=
  (HexColor entry
   /\ exists r g b, converted = Some [Int r; Int g; Int b]
                    /\ 0 <= r <= 255 /\ 0 <= g <= 255 /\ 0 <= b <= 255)
  \/ (~ HexColor entry /\ converted = None).

(** What can be read off a run that gets as far as the quantizer. *)
Definition reaches (r : Run) (e : Env) (args : Args.t) (image : Image.t)
    (colors : list string) : Prop :=
  quantizes r = true
  /\ usedPalette r = Some (map hexToRgb colors)
  /\ canvasOf r = Some (canvasSize e args image)
  /\ In (NewRgbQuant (rgbQuantOptions (js_or (Args.serpentine args) (VBool false))
                                      (map hexToRgb colors)))
        (trace r).

(** A positive finite double: what an image dimension or a scale is. *)
Definition positiveFinite (x : float) : bool :=
  (0 <? x)%float && (x <? infinity)%float.

(** The larger of two doubles. *)
Definition larger (a b : float) : float := if (a <? b)%float then b else a.

(** Sample pixels and a 4 by 3 image of uniform mid-gray. *)
Definition black : Ditherer.Pixel := Ditherer.mkPixel 0 0 0 255.
Definition white : Ditherer.Pixel := Ditherer.mkPixel 255 255 255 255.
Definition gray : Ditherer.Pixel := Ditherer.mkPixel 128 128 128 200.

Definition grayImage : Ditherer.ImageBuffer :=
  Ditherer.mkImage 4 3 (replicate 12 gray).

(** The bytes, for checking a property of every channel value. *)
Definition bytes : list nat := seq 0 256.

(** What steps 3a and 3b make of a channel that carries no error, rounded
    for the comparison of step 3c. *)
Definition settled (c : Z) : Z :=
  Ditherer.truncate (Ditherer.clamp (Ditherer.byteToFloat c + 0)%float).

(** ** Auxiliary definitions for the proofs *)

Definition hexChars : list ascii :=
  list_ascii_of_string "0123456789abcdefABCDEF".

Definition lowerHexChars : list ascii :=
  list_ascii_of_string "0123456789abcdef".

(** A pair of characters as the string a capture group holds. *)
Definition pair (c1 c2 : ascii) : string := String c1 (String c2 EmptyString).

(** What [rgbToHex] maps over the channels. *)
Definition channelToHex (x : num) : string :=
  let x := toString16 (parseInt (toStringNum x) 0) in
  if (String.length x =? 1)%nat then String "0" x else x.

Definition isByte (x : num) : bool :=
  match x with
  | Int z => (0 <=? z) && (z <=? 255)
  | NaN => false
  end.

(** ** Further vocabulary, for the properties beyond the claims *)

(** ASCII lower case of a character and of a string. *)
Definition toLowerChar (c : ascii) : ascii :=
  if inRange 65 90 c then ascii_of_N (N_of_ascii c + 32) else c.

Fixpoint toLowerCase (s : string) : string :=
  match s with
  | EmptyString => EmptyString
  | String c rest => String (toLowerChar c) (toLowerCase rest)
  end.

(** The canonical spelling of a colour: '#' and the digits in lower case. *)
Definition normalised (s : string) : string :=
  String "#" (toLowerCase (match s with String "#" rest => rest | _ => s end)).

(** [a.join(sep)] on an array of strings, as lines 115 (index.js) and 130
    (part_000) apply it to [paletteToHex(reducedPalette)]. *)
Definition join (sep : string) (a : list string) : string := String.concat sep a.

(** A colour as the quantizer reports it: three channels, each a byte. *)
Definition isByteTriple (rgb : list num) : Prop :=
  exists r g b, rgb = [Int r; Int g; Int b]
                /\ 0 <= r <= 255 /\ 0 <= g <= 255 /\ 0 <= b <= 255.

(** The number of occurrences of a character. *)
Fixpoint occurrences (c : ascii) (s : string) : nat :=
  match s with
  | EmptyString => O
  | String c' rest => if Ascii.eqb c' c then S (occurrences c rest) else occurrences c rest
  end.

(** A channel value survives [rgbToHex] then [hexToRgb] as two lowercase
    digits. *)
Definition channelRoundTrips (z : Z) : bool :=
  match channelToHex (Int z) with
  | String c1 (String c2 EmptyString) =>
      isLowerHexDigit c1 && isLowerHexDigit c2
      && match parseInt (pair c1 c2) 16 with
         | Int z' => z' =? z
         | NaN => false
         end
  | _ => false
  end.

(** What a run does besides printing. *)
Definition effects (r : Run) : list event :=
  List.filter (fun ev => negb (isPrint ev)) (trace r).

(** The images a run wrote. *)
Definition written (r : Run) : list (jsval * list Z) :=
  omap (fun ev => match ev with
                  | WriteFile outputPath pixels => Some (outputPath, pixels)
                  | _ => None
                  end) (trace r).

(** Every quantizer a run built. *)
Definition quantizers (r : Run) : list Quant.t :=
  omap (fun ev => match ev with
                  | NewRgbQuant options => Some options
                  | _ => None
                  end) (trace r).

Definition withSilence (silent : jsval) (args : Args.t) : Args.t :=
  Args.make (Args.palette args) (Args.preset args) (Args.p args) (Args.serpentine args)
            silent (Args.i args) (Args.l args) (Args.o args)
            (Args.s args) (Args.scale args) (Args.v args).

Definition withInput (i : jsval) (args : Args.t) : Args.t :=
  Args.make (Args.palette args) (Args.preset args) (Args.p args) (Args.serpentine args)
            (Args.silent args) i (Args.l args) (Args.o args)
            (Args.s args) (Args.scale args) (Args.v args).

Definition withList (args : Args.t) : Args.t :=
  Args.make (Args.palette args) (Args.preset args) (Args.p args) (Args.serpentine args)
            (Args.silent args) (Args.i args) (VBool true) (Args.o args)
            (Args.s args) (Args.scale args) (Args.v args).

(** The same arguments with [-v]. *)
Definition withVerbose (args : Args.t) : Args.t :=
  Args.make (Args.palette args) (Args.preset args) (Args.p args) (Args.serpentine args)
            (Args.silent args) (Args.i args) (Args.l args) (Args.o args)
            (Args.s args) (Args.scale args) (VBool true).

(** The sample surroundings with an input file that cannot be stat'ed. *)
Definition unreadableEnv : Env :=
  {| palettes := samplePalettes;
     statSync := fun _ => None;
     statOutput := fun _ => Some 512%float;
     loadImage := fun _ => Some (sampleImage 26 13 338);
     rgbQuant := fun _ _ _ _ =>
       Some (Quant.mkResult [[Int 0; Int 0; Int 0]; [Int 255; Int 255; Int 255]] []);
     writeOutput := fun _ => true;
     numberToString := fun _ => "0"%string;
     stringToNumber := fun _ => nan |}.

(** The options a run builds its quantizer with, for a list of colours. *)
Definition optionsFor (args : Args.t) (colors : list string) : Quant.t :=
  rgbQuantOptions (js_or (Args.serpentine args) (VBool false)) (map hexToRgb colors).

(** The ways a run of [dither()] can go: status lines only; a canvas, then
    the TypeError of [palette.map]; a canvas and a quantizer that throws; a
    canvas, a quantizer, and a write that fails; or a canvas, a quantizer,
    the reduced image written to the output path, and status lines.  [suffix] is what the entry point appends to the input
    path. *)
Inductive runCase (e : Env) (args : Args.t) (suffix : string) (r : Run) : Prop :=
| run_quiet :
    forallb isPrint (trace r) = true ->
    runCase e args suffix r
| run_map_throws logs inputPath image :
    forallb isPrint logs = true ->
    Args.i args = VStr inputPath -> loadImage e inputPath = Some image ->
    trace r = logs ++ [CreateCanvas (fst (canvasSize e args image))
                                    (snd (canvasSize e args image))] ->
    outcome r = Thrown "palette.map is not a function" ->
    runCase e args suffix r
| run_quantizer_throws logs inputPath image colors :
    forallb isPrint logs = true ->
    Args.i args = VStr inputPath -> loadImage e inputPath = Some image ->
    trace r = logs ++ [CreateCanvas (fst (canvasSize e args image))
                                    (snd (canvasSize e args image));
                       NewRgbQuant (optionsFor args colors)] ->
    outcome r = Thrown "rgbquant" ->
    runCase e args suffix r
| run_write_throws logs inputPath image colors :
    forallb isPrint logs = true ->
    Args.i args = VStr inputPath -> loadImage e inputPath = Some image ->
    writable e (js_or (Args.o args) (VStr (inputPath +:+ suffix))) = false ->
    trace r = logs ++ [CreateCanvas (fst (canvasSize e args image))
                                    (snd (canvasSize e args image));
                       NewRgbQuant (optionsFor args colors);
                       Reduce] ->
    outcome r = Thrown "write" ->
    runCase e args suffix r
| run_written logs logs' inputPath image colors result :
    forallb isPrint logs = true -> forallb isPrint logs' = true ->
    Args.i args = VStr inputPath -> inputPath <> EmptyString ->
    loadImage e inputPath = Some image ->
    writable e (js_or (Args.o args) (VStr (inputPath +:+ suffix))) = true ->
    trace r = logs ++ [CreateCanvas (fst (canvasSize e args image))
                                    (snd (canvasSize e args image));
                       NewRgbQuant (optionsFor args colors);
                       Reduce;
                       WriteFile (js_or (Args.o args) (VStr (inputPath +:+ suffix)))
                                 (Quant.ditherResult result)] ++ logs' ->
    outcome r = Returned ->
    runCase e args suffix r.

(** The shape of a run: at most one quantizer and one written image; an
    image is written only in a run whose quantizer returned the reduced
    image, and such a run returns; a run whose quantizer returned and that
    wrote no image ended on the failed write; a reduced image comes only
    from a run that built the quantizer, and that only from a run that
    created the canvas. *)
Definition orderly (r : Run) : Prop :=
  (length (quantizers r) <= 1)%nat
  /\ (length (written r) <= 1)%nat
  /\ (writes r = true -> dithers r = true /\ outcome r = Returned)
  /\ (dithers r = true -> writes r = false -> outcome r = Thrown "write")
  /\ (dithers r = true -> quantizes r = true)
  /\ (quantizes r = true -> is_Some (canvasOf r)).

(** A palette entry as the quantizer gets it: null or a triple of bytes. *)
Definition nullOrBytes (entry : option (list num)) : Prop :=
  entry = None \/ exists rgb, entry = Some rgb /\ isByteTriple rgb.

(** * Properties *)

(** ** Hexadecimal colours *)

Example hexToRgb_white : hexToRgb "#ffffff" = Some [Int 255; Int 255; Int 255].
Proof. reflexivity. Qed.

Example hexToRgb_mixed : hexToRgb "0aF3c9" = Some [Int 10; Int 243; Int 201].
Proof. reflexivity. Qed.

Example hexToRgb_short : hexToRgb "#fff" = None.
Proof. reflexivity. Qed.

Example rgbToHex_pad : rgbToHex [Int 0; Int 10; Int 255] = "#000aff"%string.
Proof. reflexivity. Qed.

Example split_three : split "," "#aaaaaa,#bbbbbb,#cccccc" = ["#aaaaaa"; "#bbbbbb"; "#cccccc"]%string.
Proof. reflexivity. Qed.

Ltac each_ascii c :=
  destruct c as [[] [] [] [] [] [] [] []]; try discriminate.

Lemma isHexDigit_chars c : isHexDigit c = true -> In c hexChars.
Proof. each_ascii c; intros _; vm_compute; tauto. Qed.

Lemma isLowerHexDigit_chars c : isLowerHexDigit c = true -> In c lowerHexChars.
Proof. each_ascii c; intros _; vm_compute; tauto. Qed.

Lemma isLowerHexDigit_isHexDigit c : isLowerHexDigit c = true -> isHexDigit c = true.
Proof. unfold isHexDigit, isLowerHexDigit. intros ->. reflexivity. Qed.

Lemma hash_not_hex : isHexDigit "#" = false.
Proof. reflexivity. Qed.

Lemma parseInt_pair_byte c1 c2 :
  isHexDigit c1 = true -> isHexDigit c2 = true -> isByte (parseInt (pair c1 c2) 16) = true.
Proof.
  intros H1 H2.
  assert (A : forallb (fun a => forallb (fun b => isByte (parseInt (pair a b) 16)) hexChars)
                hexChars = true) by (vm_compute; reflexivity).
  rewrite forallb_forall in A.
  specialize (A c1 (isHexDigit_chars c1 H1)). rewrite forallb_forall in A.
  exact (A c2 (isHexDigit_chars c2 H2)).
Qed.

Lemma channelToHex_parseInt_pair c1 c2 :
  isLowerHexDigit c1 = true -> isLowerHexDigit c2 = true ->
  channelToHex (parseInt (pair c1 c2) 16) = pair c1 c2.
Proof.
  intros H1 H2.
  assert (A : forallb (fun a => forallb (fun b =>
                 String.eqb (channelToHex (parseInt (pair a b) 16)) (pair a b))
                 lowerHexChars) lowerHexChars = true) by (vm_compute; reflexivity).
  rewrite forallb_forall in A.
  specialize (A c1 (isLowerHexDigit_chars c1 H1)). rewrite forallb_forall in A.
  apply String.eqb_eq. exact (A c2 (isLowerHexDigit_chars c2 H2)).
Qed.

Lemma isByte_Int x : isByte x = true -> exists z, x = Int z /\ 0 <= z <= 255.
Proof.
  destruct x as [z|]; [|discriminate]. simpl. intros H.
  apply andb_true_iff in H as [H1 H2]. exists z. split; [reflexivity|lia].
Qed.

(** On six hexadecimal digits the pattern matches and the groups are the
    three pairs. *)
Lemma hexPattern_exec_six c1 c2 c3 c4 c5 c6 :
  isHexDigit c1 = true -> isHexDigit c2 = true -> isHexDigit c3 = true ->
  isHexDigit c4 = true -> isHexDigit c5 = true -> isHexDigit c6 = true ->
  let body := String c1 (String c2 (String c3 (String c4 (String c5 (String c6 EmptyString))))) in
  hexPattern_exec body = Some (pair c1 c2, pair c3 c4, pair c5 c6)
  /\ hexPattern_exec (String "#" body) = Some (pair c1 c2, pair c3 c4, pair c5 c6).
Proof.
  intros H1 H2 H3 H4 H5 H6 body.
  assert (E : isHexDigit c1 && isHexDigit c2 && isHexDigit c3
              && isHexDigit c4 && isHexDigit c5 && isHexDigit c6 = true)
    by (rewrite H1, H2, H3, H4, H5, H6; reflexivity).
  split.
  - unfold hexPattern_exec, body.
    destruct (Ascii.eqb_spec c1 "#") as [->|N].
    + rewrite hash_not_hex in H1. discriminate.
    + assert (M : match String c1 (String c2 (String c3 (String c4 (String c5 (String c6 "")))))
                  with String "#" rest => rest | _ =>
                    String c1 (String c2 (String c3 (String c4 (String c5 (String c6 "")))))
                  end = String c1 (String c2 (String c3 (String c4 (String c5 (String c6 "")))))).
      { each_ascii c1; reflexivity. }
      rewrite M, E. reflexivity.
  - unfold hexPattern_exec, body. cbn [String.get]. rewrite E. reflexivity.
Qed.

Lemma hexToRgb_HexColor s :
  HexColor s ->
  exists r g b, hexToRgb s = Some [Int r; Int g; Int b]
                /\ 0 <= r <= 255 /\ 0 <= g <= 255 /\ 0 <= b <= 255.
Proof.
  intros H.
  assert (K : forall c1 c2 c3 c4 c5 c6 t (body := String c1 (String c2 (String c3
                (String c4 (String c5 (String c6 EmptyString)))))),
            isHexDigit c1 = true -> isHexDigit c2 = true -> isHexDigit c3 = true ->
            isHexDigit c4 = true -> isHexDigit c5 = true -> isHexDigit c6 = true ->
            hexPattern_exec t = Some (pair c1 c2, pair c3 c4, pair c5 c6) ->
            exists r g b, hexToRgb t = Some [Int r; Int g; Int b]
                          /\ 0 <= r <= 255 /\ 0 <= g <= 255 /\ 0 <= b <= 255).
  { intros c1 c2 c3 c4 c5 c6 t _ H1 H2 H3 H4 H5 H6 E.
    unfold hexToRgb. rewrite E.
    destruct (isByte_Int _ (parseInt_pair_byte c1 c2 H1 H2)) as (r & -> & Hr).
    destruct (isByte_Int _ (parseInt_pair_byte c3 c4 H3 H4)) as (g & -> & Hg).
    destruct (isByte_Int _ (parseInt_pair_byte c5 c6 H5 H6)) as (b & -> & Hb).
    exists r, g, b. auto. }
  destruct H as [H | (t & -> & H)]; destruct H as [c1 c2 c3 c4 c5 c6 H1 H2 H3 H4 H5 H6];
    eapply (K c1 c2 c3 c4 c5 c6); eauto;
    apply (hexPattern_exec_six c1 c2 c3 c4 c5 c6); assumption.
Qed.

Lemma hexPattern_exec_HexColor s g : hexPattern_exec s = Some g -> HexColor s.
Proof.
  unfold hexPattern_exec.
  set (body := match s with String "#" rest => rest | _ => s end).
  intros H.
  assert (B : SixOf isHexDigit body).
  { destruct body as [|c1 [|c2 [|c3 [|c4 [|c5 [|c6 [|c7 rest]]]]]]]; try discriminate.
    destruct (isHexDigit c1) eqn:H1; [|discriminate].
    destruct (isHexDigit c2) eqn:H2; [|discriminate].
    destruct (isHexDigit c3) eqn:H3; [|discriminate].
    destruct (isHexDigit c4) eqn:H4; [|discriminate].
    destruct (isHexDigit c5) eqn:H5; [|discriminate].
    destruct (isHexDigit c6) eqn:H6; [|discriminate].
    constructor; assumption. }
  clear H. subst body.
  destruct s as [|c rest].
  - left. exact B.
  - destruct (Ascii.eqb_spec c "#") as [->|N].
    + right. exists rest. split; [reflexivity|exact B].
    + left. each_ascii c; try exact B. exfalso; apply N; reflexivity.
Qed.

Lemma hexToRgb_None s : ~ HexColor s -> hexToRgb s = None.
Proof.
  intros N. unfold hexToRgb.
  destruct (hexPattern_exec s) as [g|] eqn:E; [|reflexivity].
  exfalso. apply N. eapply hexPattern_exec_HexColor. exact E.
Qed.

Lemma LowerHexColor_HexColor s : LowerHexColor s -> HexColor s.
Proof.
  intros (t & -> & H). right. exists t. split; [reflexivity|].
  destruct H. constructor; apply isLowerHexDigit_isHexDigit; assumption.
Qed.

Lemma rgbToHex_hexToRgb s rgb :
  LowerHexColor s -> hexToRgb s = Some rgb -> rgbToHex rgb = s.
Proof.
  intros (t & -> & H) E.
  destruct H as [c1 c2 c3 c4 c5 c6 H1 H2 H3 H4 H5 H6].
  pose proof (hexPattern_exec_six c1 c2 c3 c4 c5 c6
                (isLowerHexDigit_isHexDigit _ H1) (isLowerHexDigit_isHexDigit _ H2)
                (isLowerHexDigit_isHexDigit _ H3) (isLowerHexDigit_isHexDigit _ H4)
                (isLowerHexDigit_isHexDigit _ H5) (isLowerHexDigit_isHexDigit _ H6)) as [_ P].
  unfold hexToRgb in E. rewrite P in E. injection E as <-.
  unfold rgbToHex. cbn [map].
  change (fun x : num => let x0 := toString16 (parseInt (toStringNum x) 0) in
                         if (String.length x0 =? 1)%nat then String "0" x0 else x0)
    with channelToHex.
  fold (channelToHex (parseInt (pair c1 c2) 16)).
  fold (channelToHex (parseInt (pair c3 c4) 16)).
  fold (channelToHex (parseInt (pair c5 c6) 16)).
  rewrite !channelToHex_parseInt_pair by assumption.
  reflexivity.
Qed.

(** C8: for every string [s] made of '#' and six lowercase hexadecimal
    digits, [hexToRgb s] is a triple of integers, each in [0, 255], and
    [rgbToHex (hexToRgb s) = s]; for every string that does not match the
    pattern (six hexadecimal digits after an optional '#'), [hexToRgb]
    returns null. *)
Theorem hexToRgb_rgbToHex_roundtrip (s : string) :
  (LowerHexColor s ->
   exists r g b, hexToRgb s = Some [Int r; Int g; Int b]
                 /\ 0 <= r <= 255 /\ 0 <= g <= 255 /\ 0 <= b <= 255
                 /\ rgbToHex [Int r; Int g; Int b] = s)
  /\ (~ HexColor s -> hexToRgb s = None).
Proof.
  split.
  - intros L.
    destruct (hexToRgb_HexColor s (LowerHexColor_HexColor s L)) as (r & g & b & E & Hr & Hg & Hb).
    exists r, g, b. repeat split; try assumption; try lia.
    eapply rgbToHex_hexToRgb; eassumption.
  - apply hexToRgb_None.
Qed.

Lemma hexToRgb_rgbToHex_roundtrip_witness :
  hexToRgb "#0f380f" = Some [Int 15; Int 56; Int 15]
  /\ rgbToHex [Int 15; Int 56; Int 15] = "#0f380f"%string
  /\ hexToRgb "#0f380" = None.
Proof.
  destruct (hexToRgb_rgbToHex_roundtrip "#0f380f") as [R _].
  destruct (hexToRgb_rgbToHex_roundtrip "#0f380") as [_ N].
  split; [reflexivity|]. split.
  - assert (L : LowerHexColor "#0f380f")
      by (exists "0f380f"%string; split; [reflexivity|constructor; reflexivity]).
    destruct (R L) as (r & g & b & E & _ & _ & _ & H).
    injection E as <- <- <-. exact H.
  - apply N. intros [H | (t & E & H)].
    + inversion H. discriminate.
    + injection E as <-. inversion H.
Defined.

(** ** Runs of [dither()] *)

Example png_run_explicit :
  Png.dither sampleEnv (withPalette "#000000,#ffffff" inputOnly)
  = mkRun
      [Log (MDithering "in.png"); Log (MInputSize 1024);
       CreateCanvas 26 13;
       NewRgbQuant (rgbQuantOptions (VBool false)
                      [Some [Int 0; Int 0; Int 0]; Some [Int 255; Int 255; Int 255]]);
       Reduce;
       WriteFile (VStr "in.png-dither.png") [];
       Log (MOutputSize 512);
       Log (MPalette ["#000000"; "#ffffff"]%string);
       Log (MDithered "in.png-dither.png")]
      Returned.
Proof. vm_compute. reflexivity. Qed.

Example png_run_preset :
  usedPalette (Png.dither sampleEnv (withPreset "gameboy" inputOnly))
  = Some [Some [Int 15; Int 56; Int 15]; Some [Int 48; Int 98; Int 48];
          Some [Int 139; Int 172; Int 15]; Some [Int 155; Int 188; Int 15]].
Proof. vm_compute. reflexivity. Qed.

(** Printing neither builds a quantizer nor writes, and leaves what follows it to be
    read off the rest of the trace. *)
Lemma prints_only t o :
  forallb isPrint t = true ->
  quantizes (mkRun t o) = false /\ writes (mkRun t o) = false
  /\ usedPalette (mkRun t o) = None /\ canvasOf (mkRun t o) = None.
Proof.
  unfold quantizes, writes, usedPalette, canvasOf. cbn [trace].
  induction t as [|ev t IH]; [auto|].
  cbn [forallb]. intros H. apply andb_true_iff in H as [P H].
  destruct ev; try discriminate. cbn. exact (IH H).
Qed.

Lemma prints_then t1 t2 o :
  forallb isPrint t1 = true ->
  quantizes (mkRun (t1 ++ t2) o) = quantizes (mkRun t2 o)
  /\ writes (mkRun (t1 ++ t2) o) = writes (mkRun t2 o)
  /\ usedPalette (mkRun (t1 ++ t2) o) = usedPalette (mkRun t2 o)
  /\ canvasOf (mkRun (t1 ++ t2) o) = canvasOf (mkRun t2 o).
Proof.
  unfold quantizes, writes, usedPalette, canvasOf. cbn [trace].
  induction t1 as [|ev t1 IH]; [auto|].
  cbn [forallb]. intros H. apply andb_true_iff in H as [P H].
  destruct ev; try discriminate. cbn. exact (IH H).
Qed.

Lemma status_prints silent m : forallb isPrint (Gif.status silent m) = true.
Proof. unfold Gif.status. destruct (truthy silent); reflexivity. Qed.

Lemma forallb_isPrint_app t1 t2 :
  forallb isPrint t1 = true -> forallb isPrint t2 = true -> forallb isPrint (t1 ++ t2) = true.
Proof. intros H1 H2. rewrite forallb_app, H1, H2. reflexivity. Qed.

Lemma listPresets_prints e args silent : forallb isPrint (Gif.listPresets e args silent) = true.
Proof.
  unfold Gif.listPresets. apply forallb_isPrint_app; [apply status_prints|].
  induction (presetNames e) as [|name names IH]; [reflexivity|].
  cbn [flat_map]. repeat apply forallb_isPrint_app; try apply status_prints; try exact IH.
  destruct (truthy (Args.v args)); [apply status_prints|reflexivity].
Qed.

Lemma status_silent silent m : truthy silent = true -> Gif.status silent m = [].
Proof. unfold Gif.status. intros ->. reflexivity. Qed.

Lemma listPresets_silent e args silent :
  truthy silent = true -> Gif.listPresets e args silent = [].
Proof.
  intros H. unfold Gif.listPresets. rewrite status_silent by exact H. cbn [app].
  induction (presetNames e) as [|name names IH]; [reflexivity|].
  cbn [flat_map]. rewrite IH, status_silent by exact H.
  destruct (truthy (Args.v args)); [rewrite status_silent by exact H|]; reflexivity.
Qed.

Lemma truthy_or_false v : truthy (js_or v (VBool false)) = truthy v.
Proof. unfold js_or. destruct (truthy v) eqn:E; [exact E|reflexivity]. Qed.

(** The guard takes a name for unknown exactly when it is neither a key
    of the table nor a property name the table inherits. *)
Lemma unknownPreset_None e name :
  unknownPreset e name = true
  <-> palettes e !! toString e name = None /\ inherited (toString e name) = false.
Proof.
  unfold unknownPreset, getPreset.
  destruct (palettes e !! toString e name); [split; [discriminate|intros [H _]; discriminate]|].
  destruct (inherited (toString e name)); split; try discriminate; auto.
  intros [_ H]. discriminate.
Qed.

Lemma unknownPreset_Some e name :
  is_Some (palettes e !! toString e name) -> unknownPreset e name = false.
Proof.
  unfold unknownPreset, getPreset. intros [colors ->]. reflexivity.
Qed.

Lemma unknownPreset_inherited e name :
  inherited (toString e name) = true -> unknownPreset e name = false.
Proof.
  unfold unknownPreset, getPreset. intros ->.
  destruct (palettes e !! toString e name); reflexivity.
Qed.

(** The guard of [src/index.js], lines 56-66. *)
Lemma png_dither_unknown e args :
  truthy (Args.preset args) = true ->
  palettes e !! toString e (Args.preset args) = None ->
  inherited (toString e (Args.preset args)) = false ->
  Png.dither e args
  = mkRun (Log (MUnknownPreset (toString e (Args.preset args)))
           :: Log MAvailablePresets
           :: map (fun name => Log (MPresetName name)) (presetNames e))
          Returned.
Proof.
  intros T N P. unfold Png.dither.
  rewrite T, (proj2 (unknownPreset_None e _) (conj N P)). reflexivity.
Qed.

(** The guard of [src/unnamed/part_000], lines 56-64. *)
Lemma gif_dither_unknown e args :
  truthy (Gif.presetName args) = true ->
  palettes e !! toString e (Gif.presetName args) = None ->
  inherited (toString e (Gif.presetName args)) = false ->
  Gif.dither e args
  = mkRun (Gif.status (js_or (Args.silent args) (VBool false))
             (MUnknownPreset (toString e (Gif.presetName args)))
           ++ Gif.listPresets e args (js_or (Args.silent args) (VBool false)))
          Returned.
Proof.
  intros T N P. unfold Gif.dither.
  rewrite T, (proj2 (unknownPreset_None e _) (conj N P)). reflexivity.
Qed.

(** C6, as the code has it: when [dither()] runs with a truthy preset name
    that is neither a key of the preset table nor one of the property names
    the table inherits from [Object.prototype], it returns without reaching
    the quantizer and without writing an output image; [src/index.js]
    prints the unknown name, and [src/unnamed/part_000] prints it unless
    [--silent] is given, in which case it prints nothing at all. *)
Theorem unknown_preset_exits (e : Env) (args : Args.t) :
  (truthy (Args.preset args) = true ->
   palettes e !! toString e (Args.preset args) = None ->
   inherited (toString e (Args.preset args)) = false ->
   prints (MUnknownPreset (toString e (Args.preset args))) (Png.dither e args)
   /\ quantizes (Png.dither e args) = false
   /\ writes (Png.dither e args) = false
   /\ outcome (Png.dither e args) = Returned)
  /\ (truthy (Gif.presetName args) = true ->
      palettes e !! toString e (Gif.presetName args) = None ->
      inherited (toString e (Gif.presetName args)) = false ->
      (truthy (Args.silent args) = false ->
       prints (MUnknownPreset (toString e (Gif.presetName args))) (Gif.dither e args))
      /\ (truthy (Args.silent args) = true -> trace (Gif.dither e args) = [])
      /\ quantizes (Gif.dither e args) = false
      /\ writes (Gif.dither e args) = false
      /\ outcome (Gif.dither e args) = Returned).
Proof.
  split; intros T N I.
  - rewrite (png_dither_unknown e args T N I).
    split; [left; reflexivity|].
    split; [|split; [|reflexivity]]; apply prints_only; cbn [forallb isPrint andb];
      induction (presetNames e); auto.
  - rewrite (gif_dither_unknown e args T N I).
    assert (P : forallb isPrint
                  (Gif.status (js_or (Args.silent args) (VBool false))
                     (MUnknownPreset (toString e (Gif.presetName args)))
                   ++ Gif.listPresets e args (js_or (Args.silent args) (VBool false))) = true)
      by (apply forallb_isPrint_app; [apply status_prints|apply listPresets_prints]).
    repeat split; try (apply prints_only; exact P).
    + intros S. unfold prints, Gif.status. cbn [trace].
      rewrite truthy_or_false, S. left. reflexivity.
    + intros S. cbn [trace].
      rewrite status_silent, listPresets_silent by (rewrite truthy_or_false; exact S).
      reflexivity.
Qed.

Lemma unknown_preset_exits_witness :
  prints (MUnknownPreset "nosuch") (Png.dither sampleEnv (withPreset "nosuch" inputOnly))
  /\ quantizes (Gif.dither sampleEnv (withP "nosuch" inputOnly)) = false.
Proof.
  pose proof (unknown_preset_exits sampleEnv (withPreset "nosuch" inputOnly)) as [P _].
  pose proof (unknown_preset_exits sampleEnv (withP "nosuch" inputOnly)) as [_ G].
  split.
  - apply P; reflexivity.
  - apply G; reflexivity.
Defined.

(** C6 as stated fails.  In [src/unnamed/part_000], with [--silent] an
    unknown preset name is not reported.  And in both entry points a name
    that is no key of the table but is found on it all the same, such as
    [constructor], is not reported either: the guard is passed, and with an
    explicit list the run dithers and writes its output. *)
Lemma unknown_preset_silent_unreported :
  truthy (Gif.presetName (withSilent (withPreset "nosuch" inputOnly))) = true
  /\ palettes sampleEnv !! "nosuch"%string = None
  /\ ~ prints (MUnknownPreset "nosuch")
         (Gif.dither sampleEnv (withSilent (withPreset "nosuch" inputOnly)))
  /\ palettes sampleEnv !! "constructor"%string = None
  /\ ~ prints (MUnknownPreset "constructor")
         (Png.dither sampleEnv
            (withPalette "#000000,#ffffff" (withPreset "constructor" inputOnly)))
  /\ writes (Png.dither sampleEnv
               (withPalette "#000000,#ffffff" (withPreset "constructor" inputOnly))) = true
  /\ ~ prints (MUnknownPreset "constructor")
         (Gif.dither sampleEnv
            (withPalette "#000000,#ffffff" (withPreset "constructor" inputOnly)))
  /\ writes (Gif.dither sampleEnv
               (withPalette "#000000,#ffffff" (withPreset "constructor" inputOnly))) = true.
Proof.
  repeat split; try reflexivity; unfold prints; vm_compute;
    intuition discriminate.
Qed.

(** ** From the palette to the quantizer *)

Lemma andSplit_explicit s : s <> EmptyString -> andSplit (VStr s) = Some (Arr (split "," s)).
Proof.
  intros N. unfold andSplit. cbn [truthy].
  destruct (String.eqb_spec s ""); [contradiction|reflexivity].
Qed.

Lemma inputPath_given inputPath :
  inputPath <> EmptyString ->
  js_or (VStr inputPath) (VStr "") = VStr inputPath
  /\ (String.length inputPath =? 0)%nat = false.
Proof.
  intros N. destruct inputPath as [|c rest]; [contradiction|]. split; reflexivity.
Qed.

(** What the callback of [src/index.js] does with an array of colours. *)
Lemma png_onImage_array e args colors inputPath image :
  exists rest o,
    Png.onImage e args (Arr colors) inputPath image
    = mkRun ([CreateCanvas (fst (canvasSize e args image)) (snd (canvasSize e args image));
              NewRgbQuant (rgbQuantOptions (js_or (Args.serpentine args) (VBool false))
                                           (map hexToRgb colors))] ++ rest) o.
Proof.
  unfold Png.onImage. destruct (canvasSize e args image) as [width height]. cbn [fst snd].
  destruct (rgbQuant e _ image width height) as [result|].
  - destruct (writable e _); eexists _, _; cbn [app]; reflexivity.
  - exists [], (Thrown "rgbquant"). reflexivity.
Qed.

(** What the callback of [src/unnamed/part_000] does with an array of
    colours. *)
Lemma gif_onImage_array e args silent colors inputPath inputBytes image :
  exists rest o,
    Gif.onImage e args silent (Arr colors) inputPath inputBytes image
    = mkRun ([CreateCanvas (fst (canvasSize e args image)) (snd (canvasSize e args image));
              NewRgbQuant (rgbQuantOptions (js_or (Args.serpentine args) (VBool false))
                                           (map hexToRgb colors))] ++ rest) o.
Proof.
  unfold Gif.onImage. destruct (canvasSize e args image) as [width height]. cbn [fst snd].
  destruct (rgbQuant e _ image width height) as [result|].
  - destruct (writable e _); eexists _, _; cbn [app]; reflexivity.
  - exists [], (Thrown "rgbquant"). reflexivity.
Qed.

Lemma reaches_intro report rest o o' e args image colors :
  forallb isPrint report = true ->
  reaches
    (mkRun (report
            ++ trace (mkRun ([CreateCanvas (fst (canvasSize e args image))
                                           (snd (canvasSize e args image));
                              NewRgbQuant (rgbQuantOptions
                                             (js_or (Args.serpentine args) (VBool false))
                                             (map hexToRgb colors))] ++ rest) o')) o)
    e args image colors.
Proof.
  intros P. unfold reaches.
  generalize (canvasSize e args image). intros [w h]. cbn [fst snd trace].
  destruct (prints_then report
              ([CreateCanvas w h;
                NewRgbQuant (rgbQuantOptions
                               (js_or (Args.serpentine args) (VBool false))
                               (map hexToRgb colors))] ++ rest) o P) as (D & _ & U & C).
  rewrite D, U, C.
  split; [reflexivity|]. split; [reflexivity|]. split; [reflexivity|].
  apply in_or_app. right. right. left. reflexivity.
Qed.

(** [src/index.js]: once the guard is passed and the palette expression
    yields an array, a loadable input takes the run to the quantizer with
    that array, converted entry by entry. *)
Lemma png_dither_reaches e args colors inputPath image :
  truthy (Args.preset args) && unknownPreset e (Args.preset args) = false ->
  Png.selectPalette e args = Some (Arr colors) ->
  Args.i args = VStr inputPath -> inputPath <> EmptyString ->
  loadImage e inputPath = Some image ->
  reaches (Png.dither e args) e args image colors.
Proof.
  intros G S I N L. unfold Png.dither. rewrite G, S, I.
  destruct (inputPath_given inputPath N) as [-> ->]. rewrite L.
  destruct (png_onImage_array e args colors inputPath image) as (rest & o' & ->).
  cbn [outcome]. apply reaches_intro.
  cbn. destruct (statSync e inputPath); reflexivity.
Qed.

(** [src/unnamed/part_000]: the same, provided the input file can be
    stat'ed. *)
Lemma gif_dither_reaches e args colors inputPath image :
  truthy (Gif.presetName args) && unknownPreset e (Gif.presetName args) = false ->
  Gif.selectPalette e args = Some (Arr colors) ->
  Args.i args = VStr inputPath -> inputPath <> EmptyString ->
  is_Some (statSync e inputPath) ->
  loadImage e inputPath = Some image ->
  reaches (Gif.dither e args) e args image colors.
Proof.
  intros G S I N [inputBytes B] L. unfold Gif.dither. rewrite G, S, I.
  destruct (inputPath_given inputPath N) as [-> ->]. rewrite B, L.
  destruct (gif_onImage_array e args (js_or (Args.silent args) (VBool false))
              colors inputPath inputBytes image) as (rest & o' & ->).
  cbn [outcome]. apply reaches_intro.
  apply forallb_isPrint_app; apply status_prints.
Qed.

Lemma prints_then_dithers t1 t2 o :
  forallb isPrint t1 = true -> dithers (mkRun (t1 ++ t2) o) = dithers (mkRun t2 o).
Proof.
  unfold dithers. cbn [trace]. induction t1 as [|ev t1 IH]; [auto|].
  cbn [forallb]. intros H. apply andb_true_iff in H as [P H].
  destruct ev; try discriminate. cbn. exact (IH H).
Qed.

(** [src/index.js]: when the quantizer returns, the reduced image is
    written to the output path and the run returns, unless the write fails:
    then the run ends on that, and no image is written. *)
Lemma png_dither_completes e args colors inputPath image result :
  truthy (Args.preset args) && unknownPreset e (Args.preset args) = false ->
  Png.selectPalette e args = Some (Arr colors) ->
  Args.i args = VStr inputPath -> inputPath <> EmptyString ->
  loadImage e inputPath = Some image ->
  rgbQuant e (rgbQuantOptions (js_or (Args.serpentine args) (VBool false))
                              (map hexToRgb colors))
           image (fst (canvasSize e args image)) (snd (canvasSize e args image))
  = Some result ->
  dithers (Png.dither e args) = true
  /\ (writable e (js_or (Args.o args) (VStr (inputPath +:+ "-dither.png"))) = true ->
      writes (Png.dither e args) = true /\ outcome (Png.dither e args) = Returned)
  /\ (writable e (js_or (Args.o args) (VStr (inputPath +:+ "-dither.png"))) = false ->
      writes (Png.dither e args) = false
      /\ outcome (Png.dither e args) = Thrown "write").
Proof.
  intros G S I N L Q. unfold Png.dither. rewrite G, S, I.
  destruct (inputPath_given inputPath N) as [-> ->]. rewrite L.
  unfold Png.onImage. destruct (canvasSize e args image) as [w h]. cbn [fst snd] in Q.
  change (map (fun color => hexToRgb color) colors) with (map hexToRgb colors).
  rewrite Q.
  assert (P : forallb isPrint
                [Log (MDithering inputPath);
                 Log match statSync e inputPath with
                       | Some bytes => MInputSize bytes
                       | None => MCouldNotRead inputPath
                       end] = true) by reflexivity.
  destruct (writable e (js_or (Args.o args) (VStr (inputPath +:+ "-dither.png"))));
    cbn [trace outcome];
    (split; [rewrite (prints_then_dithers _ _ _ P); reflexivity|]);
    (split; [|]); intros W; try discriminate;
    (split; [|reflexivity]);
    match goal with
    | |- writes (mkRun (_ ++ ?rest) ?o) = _ =>
        destruct (prints_then _ rest o P) as (_ & -> & _)
    end; reflexivity.
Qed.

Lemma guard_known e name :
  truthy name = true -> is_Some (palettes e !! toString e name) ->
  truthy name && unknownPreset e name = false.
Proof.
  intros T K. rewrite T. cbn. apply unknownPreset_Some. exact K.
Qed.

(** A run that only prints builds no quantizer and writes nothing. *)
Lemma quiet_run r :
  forallb isPrint (trace r) = true ->
  quantizes r = false /\ writes r = false /\ usedPalette r = None /\ canvasOf r = None.
Proof. destruct r as [t o]. apply prints_only. Qed.






Lemma HexColor_exec s : HexColor s -> hexPattern_exec s <> None.
Proof.
  intros [H | (t & -> & H)]; destruct H as [c1 c2 c3 c4 c5 c6 H1 H2 H3 H4 H5 H6];
    destruct (hexPattern_exec_six c1 c2 c3 c4 c5 c6 H1 H2 H3 H4 H5 H6) as [A B];
    congruence.
Qed.

Lemma hexToRgb_conversion entry : conversionOf entry (hexToRgb entry).
Proof.
  destruct (hexPattern_exec entry) as [g|] eqn:E.
  - left. pose proof (hexPattern_exec_HexColor entry g E) as H.
    split; [exact H|]. apply hexToRgb_HexColor. exact H.
  - right. split.
    + intros H. apply (HexColor_exec entry H). exact E.
    + unfold hexToRgb. rewrite E. reflexivity.
Qed.


Lemma guard_passes e name :
  (truthy name = true -> is_Some (palettes e !! toString e name)) ->
  truthy name && unknownPreset e name = false.
Proof.
  intros K. destruct (truthy name) eqn:T; [|reflexivity].
  cbn. apply unknownPreset_Some. apply K. reflexivity.
Qed.





(** C2, as the code has it: with neither an explicit list nor a preset the
    selected palette is the empty list, and a loadable input still takes
    the run to the quantizer, which is built with an empty palette (and
    [colors: 8]); when the quantizer returns, the output is written and the
    run returns, unless the write itself fails, which ends the run with no
    image written.  This holds whatever the image's dimensions are: the
    program checks neither the palette's length nor the dimensions. *)
Theorem empty_palette_still_dithers (e : Env) (args : Args.t) (inputPath : string)
    (image : Image.t) :
  Args.palette args = VUndefined -> Args.preset args = VUndefined ->
  Args.i args = VStr inputPath -> inputPath <> EmptyString ->
  loadImage e inputPath = Some image ->
  Png.selectPalette e args = Some (Arr [])
  /\ quantizes (Png.dither e args) = true
  /\ usedPalette (Png.dither e args) = Some []
  /\ canvasOf (Png.dither e args) = Some (canvasSize e args image)
  /\ In (NewRgbQuant (rgbQuantOptions (js_or (Args.serpentine args) (VBool false)) []))
        (trace (Png.dither e args))
  /\ (is_Some (rgbQuant e (rgbQuantOptions (js_or (Args.serpentine args) (VBool false)) [])
                        image (fst (canvasSize e args image)) (snd (canvasSize e args image))) ->
      dithers (Png.dither e args) = true
      /\ (writable e (js_or (Args.o args) (VStr (inputPath +:+ "-dither.png"))) = true ->
          writes (Png.dither e args) = true /\ outcome (Png.dither e args) = Returned)
      /\ (writable e (js_or (Args.o args) (VStr (inputPath +:+ "-dither.png"))) = false ->
          writes (Png.dither e args) = false
          /\ outcome (Png.dither e args) = Thrown "write")).
Proof.
  intros P R I NI L.
  assert (S : Png.selectPalette e args = Some (Arr []))
    by (unfold Png.selectPalette; rewrite P, R; reflexivity).
  split; [exact S|].
  assert (G : truthy (Args.preset args) && unknownPreset e (Args.preset args) = false)
    by (rewrite R; reflexivity).
  destruct (png_dither_reaches e args [] inputPath image G S I NI L) as (Q & U & C & N).
  repeat (split; [assumption|]).
  intros [result Y].
  exact (png_dither_completes e args [] inputPath image result G S I NI L Y).
Qed.

Lemma empty_palette_still_dithers_witness :
  quantizes (Png.dither sampleEnv inputOnly) = true
  /\ usedPalette (Png.dither sampleEnv inputOnly) = Some []
  /\ writes (Png.dither sampleEnv inputOnly) = true
  /\ outcome (Png.dither sampleEnv (withOutput (VBool true) inputOnly)) = Thrown "write".
Proof.
  pose proof (empty_palette_still_dithers sampleEnv inputOnly "in.png" (sampleImage 26 13 338)
                eq_refl eq_refl eq_refl) as H.
  destruct H as (_ & D & U & _ & _ & H); [discriminate|reflexivity|].
  destruct (H ltac:(eexists; reflexivity)) as (_ & W & _).
  pose proof (empty_palette_still_dithers sampleEnv (withOutput (VBool true) inputOnly)
                "in.png" (sampleImage 26 13 338) eq_refl eq_refl eq_refl) as H'.
  destruct H' as (_ & _ & _ & _ & _ & H'); [discriminate|reflexivity|].
  destruct (H' ltac:(eexists; reflexivity)) as (_ & _ & F).
  split; [exact D|]. split; [exact U|]. split; [apply W; reflexivity|apply F; reflexivity].
Defined.

(** C2 as stated fails: with no palette and no preset the program does not
    stop; it builds the quantizer with the empty palette and, the quantizer
    returning and the output path being writable, writes its output.  A run on an image without columns does
    the same, on a canvas that is NaN by NaN. *)
Lemma empty_palette_proceeds :
  Png.selectPalette sampleEnv inputOnly = Some (Arr [])
  /\ usedPalette (Png.dither sampleEnv inputOnly) = Some []
  /\ dithers (Png.dither sampleEnv inputOnly) = true
  /\ writes (Png.dither sampleEnv inputOnly) = true
  /\ outcome (Png.dither sampleEnv inputOnly) = Returned
  /\ usedPalette (Png.dither emptyImageEnv inputOnly) = Some []
  /\ canvasOf (Png.dither emptyImageEnv inputOnly) = Some (nan, nan).
Proof. repeat split; vm_compute; reflexivity. Qed.

(** ** The two entry points side by side *)

(** [src/index.js] is decided by its palette choice. *)
Lemma png_dither_choice e args :
  match Png.paletteChoice e args with
  | UnknownPreset name =>
      prints (MUnknownPreset name) (Png.dither e args) /\ quantizes (Png.dither e args) = false
  | SplitThrows => Png.dither e args = mkRun [] (Thrown "args.palette.split is not a function")
  | Chosen (Arr colors) =>
      forall inputPath image,
        Args.i args = VStr inputPath -> inputPath <> EmptyString ->
        loadImage e inputPath = Some image ->
        usedPalette (Png.dither e args) = Some (map hexToRgb colors)
  | Chosen (Prim _) | Chosen (Member _) => quantizes (Png.dither e args) = false
  end.
Proof.
  unfold Png.paletteChoice.
  destruct (truthy (Args.preset args) && unknownPreset e (Args.preset args)) eqn:G.
  - apply andb_true_iff in G as [T U]. apply unknownPreset_None in U as [U I].
    rewrite (png_dither_unknown e args T U I). split; [left; reflexivity|].
    apply prints_only. cbn [forallb isPrint andb]. induction (presetNames e); auto.
  - destruct (Png.selectPalette e args) as [[v|colors|key]|] eqn:S.
    1, 3: unfold Png.dither; rewrite G, S;
      destruct (js_or (Args.i args) (VStr "")) as [| | |inputPath]; try reflexivity;
      destruct (String.length inputPath =? 0)%nat; [reflexivity|];
      (destruct (loadImage e inputPath) as [image|];
       [unfold Png.onImage; destruct (canvasSize e args image) as [w h];
        cbn [trace outcome];
        apply (prints_then _ [CreateCanvas w h]); cbn;
        destruct (statSync e inputPath); reflexivity
       |apply prints_only; cbn; destruct (statSync e inputPath); reflexivity]).
    + intros inputPath image I NI L.
      apply (png_dither_reaches e args colors inputPath image G S I NI L).
    + unfold Png.dither. rewrite G, S. reflexivity.
Qed.

Lemma presetName_preset args :
  truthy (Args.preset args) = true \/ Args.p args = Args.preset args ->
  Gif.presetName args = Args.preset args.
Proof.
  unfold Gif.presetName, js_or. intros [-> | E]; [reflexivity|].
  destruct (truthy (Args.preset args)); [reflexivity|exact E].
Qed.

(** C9, as the code has it: the two entry points make the same palette
    choice (same precedence of explicit list, preset and empty default,
    same unknown-preset exit) whenever the preset is not named through
    [-p]: [--preset] is truthy, or [-p] holds the same value as [--preset],
    as when both are absent.  Only [src/unnamed/part_000] reads [-p]. *)
Theorem palette_choice_agrees (e : Env) (args : Args.t) :
  truthy (Args.preset args) = true \/ Args.p args = Args.preset args ->
  Png.paletteChoice e args = Gif.paletteChoice e args
  /\ Png.selectPalette e args = Gif.selectPalette e args.
Proof.
  intros H. pose proof (presetName_preset args H) as E.
  unfold Png.paletteChoice, Gif.paletteChoice, Png.selectPalette, Gif.selectPalette.
  rewrite E. split; reflexivity.
Qed.

Lemma palette_choice_agrees_witness :
  Png.paletteChoice sampleEnv (withPreset "gameboy" (withP "nosuch" inputOnly))
  = Gif.paletteChoice sampleEnv (withPreset "gameboy" (withP "nosuch" inputOnly)).
Proof.
  refine (proj1 (palette_choice_agrees sampleEnv
                   (withPreset "gameboy" (withP "nosuch" inputOnly)) _)).
  left. reflexivity.
Defined.

(** C9 as stated fails: given [-p gameboy], [src/index.js] selects the
    empty palette and [src/unnamed/part_000] the preset; given an unknown
    name through [-p], only [src/unnamed/part_000] exits. *)
Lemma palette_choice_differs :
  Png.paletteChoice sampleEnv (withP "gameboy" inputOnly) = Chosen (Arr [])
  /\ Gif.paletteChoice sampleEnv (withP "gameboy" inputOnly)
     = Chosen (Arr ["#0f380f"; "#306230"; "#8bac0f"; "#9bbc0f"]%string)
  /\ Png.paletteChoice sampleEnv (withP "nosuch" inputOnly) = Chosen (Arr [])
  /\ Gif.paletteChoice sampleEnv (withP "nosuch" inputOnly) = UnknownPreset "nosuch".
Proof. repeat split; vm_compute; reflexivity. Qed.

(** ** Canvas size *)

(** Two facts of double arithmetic, from the specification of the
    primitive operations: [x * 1 = x], and [x / x = 1] for a finite
    non-zero [x]. *)
Ltac zops :=
  change IntDef.Z.add with Z.add in *; change IntDef.Z.sub with Z.sub in *;
  change IntDef.Z.max with Z.max in *; change IntDef.Z.min with Z.min in *;
  change IntDef.Z.shiftl with Z.shiftl in *;
  change IntDef.Z.div_eucl with Z.div_eucl in *.

Lemma digits2_pos_shifted (m k : positive) :
  Z.pos (digits2_pos (Pos.iter xO m k)) = Z.pos (digits2_pos m) + Z.pos k.
Proof.
  revert m. induction k as [|k IH] using Pos.peano_ind; intros m.
  - cbn. lia.
  - rewrite Pos.iter_succ. cbn [digits2_pos]. rewrite Pos2Z.inj_succ, IH. lia.
Qed.

Lemma iter_pos_iter (A : Type) (f : A -> A) (n : positive) (x : A) :
  SpecFloat.iter_pos f n x = Pos.iter f x n.
Proof.
  revert x. induction n as [n IH|n IH|]; intros x; cbn;
    rewrite ?IH, ?Pos.iter_swap; reflexivity.
Qed.

Lemma shr_1_shifted (k m : positive) :
  SpecFloat.iter_pos shr_1 k {| shr_m := Z.pos (Pos.iter xO m k); shr_r := false; shr_s := false |}
  = {| shr_m := Z.pos m; shr_r := false; shr_s := false |}.
Proof.
  rewrite iter_pos_iter. revert m.
  induction k as [|k IH] using Pos.peano_ind; intros m.
  - reflexivity.
  - rewrite Pos.iter_succ_r, Pos.iter_succ. cbn [shr_1 orb]. apply IH.
Qed.

Lemma mul_pow2_shifted (m k : positive) :
  (m * Pos.iter xO 1 k)%positive = Pos.iter xO m k.
Proof.
  induction k as [|k IH] using Pos.peano_ind.
  - cbn. lia.
  - rewrite !Pos.iter_succ, <- IH. lia.
Qed.

Lemma float_mul_one (x : float) : (x * 1)%float = x.
Proof.
  apply Prim2SF_inj. rewrite mul_spec.
  change (Prim2SF 1) with (S754_finite false 4503599627370496 (-52)).
  pose proof (Prim2SF_valid x) as V.
  destruct (Prim2SF x) as [s|s| |s m e]; cbn [SF64mul SFmul];
    rewrite ?xorb_false_r; try reflexivity.
  cbn [SpecFloat.valid_binary] in V. unfold bounded, canonical_mantissa in V.
  apply andb_true_iff in V as [C B]. apply Z.eqb_eq in C.
  change 4503599627370496%positive with (Pos.iter xO 1%positive 52).
  rewrite mul_pow2_shifted.
  unfold binary_round_aux, shr_fexp. cbn [Zdigits2 shr_record_of_loc]. zops.
  rewrite digits2_pos_shifted.
  replace (Z.pos (digits2_pos m) + 52 + (e + -52)) with (Z.pos (digits2_pos m) + e) by lia.
  rewrite C. replace (e - (e + -52)) with 52 by lia.
  cbn [shr]. rewrite shr_1_shifted.
  cbn [shr_m loc_of_shr_record round_nearest_even Zdigits2 shr_record_of_loc].
  replace (e + -52 + 52) with e by lia. rewrite C, Z.sub_diag. cbn [shr shr_m].
  unfold prec, emax in *. rewrite B. reflexivity.
Qed.

Lemma float_div_self (x : float) s m e :
  Prim2SF x = S754_finite s m e -> (x / x)%float = 1%float.
Proof.
  intros E. apply Prim2SF_inj. rewrite div_spec, E.
  change (Prim2SF 1) with (S754_finite false 4503599627370496 (-52)).
  cbn [SF64div SFdiv]. unfold SFdiv_core_binary. zops.
  rewrite xorb_nilpotent.
  replace (Zdigits2 (Z.pos m) + e - (Zdigits2 (Z.pos m) + e)) with 0 by lia.
  rewrite Z.sub_diag.
  change (Z.min (fexp prec emax 0) 0) with (-53).
  change (0 - -53) with 53.
  cbv beta iota zeta.
  rewrite Z.shiftl_mul_pow2 by lia.
  assert (D : Z.div_eucl (Z.pos m * 2 ^ 53) (Z.pos m) = (2 ^ 53, 0)).
  { pose proof (Z.div_eucl_eq (Z.pos m * 2 ^ 53) (Z.pos m)) as Q.
    pose proof (Z.mod_pos_bound (Z.pos m * 2 ^ 53) (Z.pos m)) as R.
    unfold Z.modulo in R.
    destruct (Z.div_eucl (Z.pos m * 2 ^ 53) (Z.pos m)) as [q r].
    specialize (Q ltac:(lia)). specialize (R ltac:(lia)).
    assert (q = 2 ^ 53) by nia. subst q. f_equal. lia. }
  rewrite D.
  assert (L : new_location (Z.pos m) 0 = loc_Exact).
  { unfold new_location, new_location_even, new_location_odd.
    destruct (IntDef.Z.even (Z.pos m)); reflexivity. }
  rewrite L. vm_compute. reflexivity.
Qed.

Lemma positiveFinite_finite x :
  positiveFinite x = true -> exists m e, Prim2SF x = S754_finite false m e.
Proof.
  unfold positiveFinite. rewrite !FloatAxioms.ltb_spec.
  change (Prim2SF 0) with (S754_zero false).
  change (Prim2SF infinity) with (S754_infinity false).
  destruct (Prim2SF x) as [s|s| |s m e]; cbn; try discriminate.
  - destruct s; discriminate.
  - destruct s; [discriminate|]. intros _. exists m, e. reflexivity.
Qed.

Lemma positiveFinite_truthy x : positiveFinite x = true -> truthy (VNum x) = true.
Proof.
  intros H. destruct (positiveFinite_finite x H) as (m & e & E).
  cbn [truthy]. unfold PrimFloat.is_zero, PrimFloat.is_nan.
  rewrite !FloatAxioms.eqb_spec, E. change (Prim2SF zero) with (S754_zero false). cbn.
  rewrite Z.compare_refl, Pos.compare_cont_refl. reflexivity.
Qed.

(** Without a scale the ratio is [min(w / w, h / h) = 1]. *)
Lemma canvasSize_unscaled e args image :
  positiveFinite (Image.width image) = true ->
  positiveFinite (Image.height image) = true ->
  truthy (js_or (Args.s args) (Args.scale args)) = false ->
  canvasSize e args image = (Image.width image, Image.height image).
Proof.
  intros W H S. unfold canvasSize, scaledSize.
  assert (J : forall v, js_or (js_or (Args.s args) (Args.scale args)) v = v)
    by (intros v; unfold js_or at 1; rewrite S; reflexivity).
  rewrite !J. cbn [toNumber ndiv nmul nmin float_arith].
  destruct (positiveFinite_finite _ W) as (mw & ew & EW).
  destruct (positiveFinite_finite _ H) as (mh & eh & EH).
  rewrite (float_div_self _ _ _ _ EW), (float_div_self _ _ _ _ EH).
  change (Math_min 1 1) with 1%float. rewrite !float_mul_one. reflexivity.
Qed.

(** In exact arithmetic the scaled canvas has [s] as its larger side and
    the proportions of the image. *)
Lemma scaledSize_exact (s w h : Q) :
  (0 < s)%Q -> (0 < w)%Q -> (0 < h)%Q ->
  (Qmax (fst (scaledSize s s w h)) (snd (scaledSize s s w h)) == s)%Q
  /\ (fst (scaledSize s s w h) * h == snd (scaledSize s s w h) * w)%Q.
Proof.
  intros Hs Hw Hh. unfold scaledSize. cbn [fst snd ndiv nmul nmin Q_arith].
  split; [|ring].
  assert (A : (w * (s / w) == s)%Q) by (field; lra).
  assert (B : (h * (s / h) == s)%Q) by (field; lra).
  revert A B. generalize (s / w)%Q (s / h)%Q. intros r r' A B.
  destruct (Q.min_spec r r') as [[L E] | [L E]]; rewrite E.
  - rewrite Q.max_l; [exact A|]. nra.
  - rewrite Q.max_r; [exact B|]. nra.
Qed.

(** C10: the code misses the claim by the rounding of its doubles.  On a
    26 by 13 image with [-s 480] both entry points ask for a canvas of
    479.99999999999994 by 239.99999999999997 (written below in hexadecimal,
    digit for digit), whose larger side is not 480; on a 13 by 26 image the
    same with the sides exchanged.  The formula of lines 87-89 evaluated
    exactly gives 480 by 240 there. *)
Theorem canvas_size_rounds :
  canvasOf (Png.dither sampleEnv (withScale 480 inputOnly))
  = Some (0x1.dffffffffffffp+8%float, 0x1.dffffffffffffp+7%float)
  /\ canvasOf (Gif.dither sampleEnv (withScale 480 inputOnly))
     = Some (0x1.dffffffffffffp+8%float, 0x1.dffffffffffffp+7%float)
  /\ larger 0x1.dffffffffffffp+8 0x1.dffffffffffffp+7 <> 480%float
  /\ canvasSize sampleEnv (withScale 480 inputOnly) (sampleImage 13 26 338)
     = (0x1.dffffffffffffp+7%float, 0x1.dffffffffffffp+8%float)
  /\ (fst (scaledSize 480 480 26 13) == 480)%Q
  /\ (snd (scaledSize 480 480 26 13) == 240)%Q.
Proof.
  split; [vm_compute; reflexivity|].
  split; [vm_compute; reflexivity|].
  split; [vm_compute; discriminate|].
  split; [vm_compute; reflexivity|].
  split; reflexivity.
Qed.

(** ** The ditherer of the specification *)

Import Ditherer.

Lemma nearestFrom_In c best rest : In (nearestFrom c best rest) (best :: rest).
Proof.
  revert best. induction rest as [|q rest IH]; intros best; cbn [nearestFrom].
  - left. reflexivity.
  - destruct (IH (if distance c q <? distance c best then q else best)) as [E|I].
    + destruct (distance c q <? distance c best); rewrite <- E; [right; left|left]; reflexivity.
    + right. right. exact I.
Qed.

Lemma nearestFrom_le c best rest :
  forall q, In q (best :: rest) -> distance c (nearestFrom c best rest) <= distance c q.
Proof.
  revert best. induction rest as [|q0 rest IH]; intros best q I; cbn [nearestFrom].
  - destruct I as [<-|[]]. lia.
  - set (best' := if distance c q0 <? distance c best then q0 else best).
    assert (B : distance c best' <= distance c best /\ distance c best' <= distance c q0).
    { unfold best'. destruct (Z.ltb_spec (distance c q0) (distance c best)); lia. }
    pose proof (IH best' best' (or_introl eq_refl)) as H0.
    destruct I as [<-|[<-|I]]; [lia|lia|].
    apply IH. right. exact I.
Qed.

Lemma diffuse_length w h dir x y err kernel acc :
  length (fold_left (diffuse w h dir x y err) kernel acc) = length acc.
Proof.
  revert acc. induction kernel as [|t kernel IH]; intros acc; cbn [fold_left]; [reflexivity|].
  rewrite IH. unfold diffuse. destruct (target w h dir x y t); [apply length_alter|reflexivity].
Qed.

Lemma filled_weaken palette n (done done' : nat -> Prop) st :
  (forall i, done' i -> done i) -> filled palette n done st -> filled palette n done' st.
Proof.
  intros W (L1 & L2 & F). split; [exact L1|]. split; [exact L2|].
  intros i p D. apply F, W, D.
Qed.

(** Step 3 keeps the lengths and leaves a palette colour at the pixel it
    processes. *)
Lemma stepPixel_filled image best rest kernel dir y x done st :
  length (pixels image) = (width image * height image)%nat ->
  (x < width image)%nat -> (y < height image)%nat ->
  filled (best :: rest) (width image * height image) done st ->
  filled (best :: rest) (width image * height image)
         (fun i => i = (y * width image + x)%nat \/ done i)
         (stepPixel image best rest kernel dir y st x).
Proof.
  intros LP X Y (L1 & L2 & F). destruct st as [out acc]. cbn [fst snd] in *.
  unfold stepPixel.
  assert (B : (y * width image + x < width image * height image)%nat) by nia.
  destruct (lookup_lt_is_Some_2 (pixels image) (y * width image + x)) as [source ->];
    [lia|].
  destruct (lookup_lt_is_Some_2 acc (y * width image + x)) as [carried ->]; [lia|].
  split; [|split]; cbn [fst snd].
  - rewrite length_insert. exact L1.
  - rewrite diffuse_length. exact L2.
  - intros i p D H.
    destruct (decide (i = (y * width image + x)%nat)) as [->|N].
    + rewrite list_lookup_insert_eq in H by lia. injection H as <-.
      eexists. split; [apply nearestFrom_In|]. cbn. auto.
    + rewrite list_lookup_insert_ne in H by congruence.
      destruct D as [D|D]; [contradiction|]. exact (F i p D H).
Qed.

Lemma stepRow_filled image best rest kernel dir y columns done st :
  length (pixels image) = (width image * height image)%nat ->
  (forall x, In x columns -> (x < width image)%nat) -> (y < height image)%nat ->
  filled (best :: rest) (width image * height image) done st ->
  filled (best :: rest) (width image * height image)
         (fun i => (exists x, In x columns /\ i = (y * width image + x)%nat) \/ done i)
         (fold_left (stepPixel image best rest kernel dir y) columns st).
Proof.
  intros LP C Y. revert done st.
  induction columns as [|x columns IH]; intros done st F; cbn [fold_left].
  - eapply filled_weaken; [|exact F]. intros i [(x & [] & _)|D]. exact D.
  - eapply filled_weaken;
      [|apply IH; [intros x' I; apply C; right; exact I|
                   apply (stepPixel_filled image best rest kernel dir y x done st LP);
                   [apply C; left; reflexivity|exact Y|exact F]]].
    intros i [(x' & [<-|I] & E)|D].
    + right. left. exact E.
    + left. exists x'. auto.
    + right. right. exact D.
Qed.

Lemma rowOrder_In w serpentine y x : In x (rowOrder w serpentine y) <-> (x < w)%nat.
Proof.
  unfold rowOrder.
  destruct (serpentine && Nat.odd y); rewrite <- ?in_rev, in_seq; lia.
Qed.

Lemma pass_rows_filled image best rest kernel serpentine rows done st :
  length (pixels image) = (width image * height image)%nat ->
  (forall y, In y rows -> (y < height image)%nat) ->
  filled (best :: rest) (width image * height image) done st ->
  filled (best :: rest) (width image * height image)
         (fun i => (exists y x, In y rows /\ (x < width image)%nat
                                /\ i = (y * width image + x)%nat) \/ done i)
         (fold_left (stepRow image best rest kernel serpentine) rows st).
Proof.
  intros LP R. revert done st.
  induction rows as [|y rows IH]; intros done st F; cbn [fold_left].
  - eapply filled_weaken; [|exact F]. intros i [(y & x & [] & _)|D]. exact D.
  - eapply filled_weaken;
      [|apply IH; [intros y' I; apply R; right; exact I|
                   unfold stepRow;
                   apply (stepRow_filled image best rest kernel _ y _ done st LP);
                   [intros x I; apply (rowOrder_In _ serpentine y), I
                   |apply R; left; reflexivity|exact F]]].
    intros i [(y' & x & [<-|I] & X & E)|D].
    + right. left. exists x. split; [apply rowOrder_In, X|exact E].
    + left. exists y', x. auto.
    + right. right. exact D.
Qed.

(** After the whole pass every position holds a palette colour. *)
Lemma pass_filled image best rest kernel serpentine :
  length (pixels image) = (width image * height image)%nat ->
  length (fst (pass image best rest kernel serpentine)) = (width image * height image)%nat
  /\ Forall (inPalette (best :: rest)) (fst (pass image best rest kernel serpentine)).
Proof.
  intros LP. unfold pass.
  destruct (pass_rows_filled image best rest kernel serpentine (seq 0 (height image))
              (fun _ => False)
              (pixels image,
               replicate (width image * height image) (0%float, 0%float, 0%float)) LP)
    as (L1 & _ & F).
  - intros y I. apply in_seq in I. lia.
  - split; [exact LP|]. split; [apply length_replicate|]. intros i p [].
  - split; [exact L1|]. apply Forall_forall. intros p I.
    apply list_elem_of_lookup in I as [i I].
    apply (F i p); [|exact I]. left.
    pose proof (lookup_lt_Some _ _ _ I) as B. rewrite L1 in B.
    assert (W : (width image <> 0)%nat) by (intros Z; rewrite Z in B; lia).
    exists (i / width image)%nat, (i mod width image)%nat.
    split; [|split].
    + apply in_seq. split; [lia|]. cbn. apply Nat.Div0.div_lt_upper_bound. lia.
    + apply Nat.mod_upper_bound. exact W.
    + rewrite (Nat.div_mod_eq i (width image)) at 1. lia.
Qed.

(** C1: [dither] succeeds on a non-empty palette and an image of non-zero
    dimensions, and whenever it returns an output buffer, every pixel of it
    has the RGB channels of some entry of the palette. *)
Theorem dither_palette_membership (image : ImageBuffer) (palette : list Pixel)
    (kernel : list Tap) (serpentine : bool) :
  (palette <> [] -> width image <> 0%nat -> height image <> 0%nat ->
   length (pixels image) = (width image * height image)%nat ->
   exists out, dither image palette kernel serpentine = Ok out)
  /\ (forall out,
        dither image palette kernel serpentine = Ok out ->
        width out = width image /\ height out = height image
        /\ length (pixels out) = (width image * height image)%nat
        /\ Forall (inPalette palette) (pixels out)).
Proof.
  unfold dither. destruct palette as [|best rest].
  - split; [intros N; contradiction|discriminate].
  - destruct (Nat.eqb_spec (width image) 0) as [W|W]; cbn [orb].
    { split; [intros _ N; contradiction|discriminate]. }
    destruct (Nat.eqb_spec (height image) 0) as [H|H]; cbn [orb].
    { split; [intros _ _ N; contradiction|discriminate]. }
    destruct (Nat.eqb_spec (length (pixels image)) (width image * height image)) as [L|L];
      cbn [negb].
    + split; [intros _ _ _ _; eexists; reflexivity|].
      intros out E. injection E as <-. cbn [width height pixels].
      destruct (pass_filled image best rest kernel serpentine L) as [L1 F]. auto.
    + split; [intros _ _ _ N; contradiction|discriminate].
Qed.

Lemma dither_palette_membership_witness :
  exists out,
    dither grayImage [black; white] FloydSteinberg true = Ok out
    /\ Forall (inPalette [black; white]) (pixels out).
Proof.
  destruct (proj1 (dither_palette_membership grayImage [black; white] FloydSteinberg true))
    as [out E]; try discriminate; try reflexivity.
  exists out. split; [exact E|].
  apply (proj2 (dither_palette_membership grayImage [black; white] FloydSteinberg true) out E).
Defined.

Example dither_gray_checkerboard :
  dither grayImage [black; white] FloydSteinberg false
  = Ok (mkImage 4 3
          (map (fun q => recolor q gray)
               [white; black; white; black;
                black; white; black; white;
                white; black; white; black])).
Proof. vm_compute. reflexivity. Qed.

(** A byte that carries no error comes back unchanged from the addition,
    the clamp and the rounding. *)
Lemma settled_byte c : 0 <= c <= 255 -> settled c = c.
Proof.
  intros B.
  assert (A : forallb (fun n => settled (Z.of_nat n) =? Z.of_nat n) bytes = true)
    by (vm_compute; reflexivity).
  rewrite forallb_forall in A.
  specialize (A (Z.to_nat c)). rewrite Z2Nat.id in A by lia.
  apply Z.eqb_eq, A. apply in_seq. lia.
Qed.

(** On a 1 by 1 image every tap of a kernel points outside. *)
Lemma target_single t dir :
  ahead t <> 0 \/ below t <> 0 -> dir = 1 \/ dir = -1 -> target 1 1 dir 0 0 t = None.
Proof.
  intros T D. unfold target. change (Z.of_nat 0) with 0. change (Z.of_nat 1) with 1.
  destruct ((0 <=? 0 + dir * ahead t) && (0 + dir * ahead t <? 1)
            && (0 <=? 0 + below t) && (0 + below t <? 1)) eqn:E; [|reflexivity].
  exfalso. repeat (apply andb_true_iff in E as [E ?]).
  destruct T as [T|T]; apply T; lia.
Qed.

Lemma targets_single kernel dir :
  spreads kernel -> dir = 1 \/ dir = -1 -> targets 1 1 kernel dir 0 0 = [].
Proof.
  intros S D. unfold targets.
  induction S as [|t kernel T S IH]; [reflexivity|].
  simpl. rewrite (target_single t dir T D). exact IH.
Qed.

Lemma diffuse_single kernel dir err acc :
  spreads kernel -> dir = 1 \/ dir = -1 ->
  fold_left (diffuse 1 1 dir 0 0 err) kernel acc = acc.
Proof.
  intros S D. revert acc.
  induction S as [|t kernel T S IH]; intros acc; [reflexivity|].
  cbn [fold_left]. unfold diffuse at 2. rewrite (target_single t dir T D). apply IH.
Qed.

Lemma direction_cases serpentine y : direction serpentine y = 1 \/ direction serpentine y = -1.
Proof. unfold direction. destruct (serpentine && Nat.odd y); auto. Qed.

(** C7: dithering a 1 by 1 image of a well-formed pixel with a non-empty
    palette returns a 1 by 1 image, and its pixel has the colour of the
    palette entry nearest to the source pixel in squared RGB distance (the
    first such entry), under the alpha of the source; no neighbour receives
    any error, and the accumulator is left at zero. *)
Theorem dither_single_pixel (p best : Pixel) (rest : list Pixel) (kernel : list Tap)
    (serpentine : bool) :
  wellFormed p -> spreads kernel ->
  dither (mkImage 1 1 [p]) (best :: rest) kernel serpentine
  = Ok (mkImage 1 1 [recolor (nearestFrom (rgb p) best rest) p])
  /\ In (nearestFrom (rgb p) best rest) (best :: rest)
  /\ (forall q, In q (best :: rest) ->
                distance (rgb p) (nearestFrom (rgb p) best rest) <= distance (rgb p) q)
  /\ targets 1 1 kernel (direction serpentine 0) 0 0 = []
  /\ snd (pass (mkImage 1 1 [p]) best rest kernel serpentine) = [(0%float, 0%float, 0%float)].
Proof.
  intros (R & G & B) S.
  assert (P : pass (mkImage 1 1 [p]) best rest kernel serpentine
              = ([recolor (nearestFrom (rgb p) best rest) p], [(0%float, 0%float, 0%float)])).
  { unfold pass, stepRow, rowOrder. cbn [width height pixels seq fold_left Nat.odd].
    rewrite andb_false_r. cbn [seq fold_left Nat.mul Nat.add replicate].
    unfold stepPixel. cbn [width height pixels Nat.mul Nat.add lookup list_lookup].
    rewrite (diffuse_single kernel _ _ _ S (direction_cases serpentine 0)).
    unfold clampColor, addColor, toColor, roundColor.
    fold (settled (red p)). fold (settled (green p)). fold (settled (blue p)).
    rewrite !settled_byte by assumption. reflexivity. }
  split; [unfold dither; cbn -[pass]; rewrite P; reflexivity|].
  split; [apply nearestFrom_In|].
  split; [apply nearestFrom_le|].
  split; [apply targets_single; [exact S|apply direction_cases]|].
  rewrite P. reflexivity.
Qed.

Lemma FloydSteinberg_spreads : spreads FloydSteinberg.
Proof. repeat constructor; cbn; lia. Qed.

Lemma dither_single_pixel_witness :
  dither (mkImage 1 1 [gray]) [black; white] FloydSteinberg true
  = Ok (mkImage 1 1 [mkPixel 255 255 255 200]).
Proof.
  refine (proj1 (dither_single_pixel gray black [white] FloydSteinberg true _
                   FloydSteinberg_spreads)).
  unfold wellFormed. cbn. lia.
Defined.

(** * Further properties of the code *)

(** ** Colour conversion in both directions *)

Lemma channelToHex_pair_lower c1 c2 :
  isHexDigit c1 = true -> isHexDigit c2 = true ->
  channelToHex (parseInt (pair c1 c2) 16) = pair (toLowerChar c1) (toLowerChar c2).
Proof.
  intros H1 H2.
  assert (A : forallb (fun a => forallb (fun b =>
                 String.eqb (channelToHex (parseInt (pair a b) 16))
                            (pair (toLowerChar a) (toLowerChar b)))
                 hexChars) hexChars = true) by (vm_compute; reflexivity).
  rewrite forallb_forall in A.
  specialize (A c1 (isHexDigit_chars c1 H1)). rewrite forallb_forall in A.
  apply String.eqb_eq. exact (A c2 (isHexDigit_chars c2 H2)).
Qed.

Lemma toLowerChar_lowerHex c : isHexDigit c = true -> isLowerHexDigit (toLowerChar c) = true.
Proof. intros H. apply isHexDigit_chars in H. vm_compute in H.
  repeat (destruct H as [<-|H]; [reflexivity|]). destruct H. Qed.

Lemma rgbToHex_three x y z :
  rgbToHex [x; y; z] = String "#" (channelToHex x +:+ channelToHex y +:+ channelToHex z).
Proof.
  unfold rgbToHex. cbn [map String.concat].
  fold (channelToHex x). fold (channelToHex y). fold (channelToHex z).
  reflexivity.
Qed.

Lemma not_hash_first c rest :
  isHexDigit c = true ->
  match String c rest with String "#" tail => tail | _ => String c rest end = String c rest.
Proof. intros H. each_ascii c; reflexivity. Qed.

(** The groups of a well-formed colour and its canonical spelling. *)
Lemma HexColor_groups s :
  HexColor s ->
  exists c1 c2 c3 c4 c5 c6,
    isHexDigit c1 = true /\ isHexDigit c2 = true /\ isHexDigit c3 = true
    /\ isHexDigit c4 = true /\ isHexDigit c5 = true /\ isHexDigit c6 = true
    /\ hexPattern_exec s = Some (pair c1 c2, pair c3 c4, pair c5 c6)
    /\ normalised s
       = String "#" (pair (toLowerChar c1) (toLowerChar c2)
                     +:+ pair (toLowerChar c3) (toLowerChar c4)
                     +:+ pair (toLowerChar c5) (toLowerChar c6)).
Proof.
  intros [H | (t & -> & H)]; destruct H as [c1 c2 c3 c4 c5 c6 H1 H2 H3 H4 H5 H6];
    destruct (hexPattern_exec_six c1 c2 c3 c4 c5 c6 H1 H2 H3 H4 H5 H6) as [A B];
    exists c1, c2, c3, c4, c5, c6; repeat (split; [assumption|]).
  - unfold normalised. rewrite (not_hash_first c1 _ H1). reflexivity.
  - reflexivity.
Qed.

(** X1: a well-formed colour, in either case and with or without '#', is
    converted by [hexToRgb] to a value that [rgbToHex] writes back as '#'
    and the same six digits in lower case. *)
Theorem rgbToHex_hexToRgb_normalises (s : string) :
  HexColor s ->
  exists rgb, hexToRgb s = Some rgb
              /\ rgbToHex rgb = normalised s
              /\ LowerHexColor (rgbToHex rgb).
Proof.
  intros H.
  destruct (HexColor_groups s H) as (c1 & c2 & c3 & c4 & c5 & c6
                                      & H1 & H2 & H3 & H4 & H5 & H6 & E & N).
  unfold hexToRgb. rewrite E. eexists. split; [reflexivity|].
  rewrite rgbToHex_three, !channelToHex_pair_lower by assumption.
  split; [symmetry; exact N|].
  eexists. split; [reflexivity|].
  constructor; apply toLowerChar_lowerHex; assumption.
Qed.

Lemma rgbToHex_hexToRgb_normalises_witness :
  exists rgb, hexToRgb "8BAC0f" = Some rgb /\ rgbToHex rgb = "#8bac0f"%string.
Proof.
  destruct (rgbToHex_hexToRgb_normalises "8BAC0f") as (rgb & E & N & _).
  - left. constructor; reflexivity.
  - exists rgb. split; [exact E|exact N].
Defined.

Lemma channelRoundTrips_byte z : 0 <= z <= 255 -> channelRoundTrips z = true.
Proof.
  intros B.
  assert (A : forallb (fun n => channelRoundTrips (Z.of_nat n)) bytes = true)
    by (vm_compute; reflexivity).
  rewrite forallb_forall in A.
  specialize (A (Z.to_nat z)). rewrite Z2Nat.id in A by lia.
  apply A, in_seq. lia.
Qed.

Lemma channelToHex_byte z :
  0 <= z <= 255 ->
  exists c1 c2, channelToHex (Int z) = pair c1 c2
                /\ isLowerHexDigit c1 = true /\ isLowerHexDigit c2 = true
                /\ parseInt (pair c1 c2) 16 = Int z.
Proof.
  intros B. pose proof (channelRoundTrips_byte z B) as R. unfold channelRoundTrips in R.
  destruct (channelToHex (Int z)) as [|c1 [|c2 [|c3 rest]]]; try discriminate.
  apply andb_true_iff in R as [R P]. apply andb_true_iff in R as [L1 L2].
  exists c1, c2. repeat split; try assumption.
  destruct (parseInt (pair c1 c2) 16) as [z'|]; [|discriminate].
  apply Z.eqb_eq in P. subst. reflexivity.
Qed.

Lemma rgbToHex_byteTriple rgb :
  isByteTriple rgb -> LowerHexColor (rgbToHex rgb) /\ hexToRgb (rgbToHex rgb) = Some rgb.
Proof.
  intros (r & g & b & -> & Hr & Hg & Hb).
  destruct (channelToHex_byte r Hr) as (c1 & c2 & E1 & L1 & L2 & P1).
  destruct (channelToHex_byte g Hg) as (c3 & c4 & E2 & L3 & L4 & P2).
  destruct (channelToHex_byte b Hb) as (c5 & c6 & E3 & L5 & L6 & P3).
  rewrite rgbToHex_three, E1, E2, E3.
  change (String "#" (pair c1 c2 +:+ pair c3 c4 +:+ pair c5 c6))
    with (String "#" (String c1 (String c2 (String c3 (String c4 (String c5
                        (String c6 EmptyString))))))).
  split.
  - eexists. split; [reflexivity|]. constructor; assumption.
  - unfold hexToRgb.
    destruct (hexPattern_exec_six c1 c2 c3 c4 c5 c6) as [_ ->];
      try (apply isLowerHexDigit_isHexDigit; assumption).
    rewrite P1, P2, P3. reflexivity.
Qed.

(** X2: for three channel values in 0-255, [rgbToHex] writes '#' and six
    lowercase hexadecimal digits, and [hexToRgb] reads the same three values
    back. *)
Theorem hexToRgb_rgbToHex_bytes (r g b : Z) :
  0 <= r <= 255 -> 0 <= g <= 255 -> 0 <= b <= 255 ->
  LowerHexColor (rgbToHex [Int r; Int g; Int b])
  /\ hexToRgb (rgbToHex [Int r; Int g; Int b]) = Some [Int r; Int g; Int b].
Proof.
  intros Hr Hg Hb. apply rgbToHex_byteTriple. exists r, g, b. auto.
Qed.

Lemma hexToRgb_rgbToHex_bytes_witness :
  hexToRgb (rgbToHex [Int 139; Int 172; Int 15]) = Some [Int 139; Int 172; Int 15].
Proof.
  refine (proj2 (hexToRgb_rgbToHex_bytes 139 172 15 _ _ _)); lia.
Defined.

(** X3: two well-formed colour strings are converted to the same value
    exactly when they are the same up to the case of the digits and the
    optional '#'. *)
Theorem hexToRgb_same_colour (s t : string) :
  HexColor s -> HexColor t ->
  (hexToRgb s = hexToRgb t <-> normalised s = normalised t).
Proof.
  intros Hs Ht.
  assert (F : forall u, HexColor u ->
                exists rgb, hexToRgb u = Some rgb /\ rgbToHex rgb = normalised u
                            /\ hexToRgb (rgbToHex rgb) = Some rgb).
  { intros u Hu.
    destruct (hexToRgb_HexColor u Hu) as (r & g & b & E & Hr & Hg & Hb).
    destruct (HexColor_groups u Hu) as (c1 & c2 & c3 & c4 & c5 & c6
                                         & H1 & H2 & H3 & H4 & H5 & H6 & X & N).
    exists [Int r; Int g; Int b]. split; [exact E|]. split.
    - unfold hexToRgb in E. rewrite X in E. injection E as <- <- <-.
      rewrite rgbToHex_three, !channelToHex_pair_lower by assumption.
      symmetry. exact N.
    - apply rgbToHex_byteTriple. exists r, g, b. auto. }
  destruct (F s Hs) as (rs & Es & Ns & Bs). destruct (F t Ht) as (rt & Et & Nt & Bt).
  rewrite Es, Et, <- Ns, <- Nt. split.
  - intros E. injection E as ->. reflexivity.
  - intros E. rewrite E in Bs. rewrite Bs in Bt. exact Bt.
Qed.

Lemma hexToRgb_same_colour_witness : hexToRgb "#8BAC0F" = hexToRgb "8bac0f".
Proof.
  apply (hexToRgb_same_colour "#8BAC0F" "8bac0f").
  - right. eexists. split; [reflexivity|]. constructor; reflexivity.
  - left. constructor; reflexivity.
  - reflexivity.
Defined.

(** ** The palette line: [split] and [join] *)

Lemma split_plain s : occurrences "," s = O -> split "," s = [s].
Proof.
  induction s as [|c s IH]; [reflexivity|]. cbn [occurrences split].
  destruct (Ascii.eqb c ","); [discriminate|]. intros H. rewrite (IH H). reflexivity.
Qed.

Lemma split_field s rest :
  occurrences "," s = O -> split "," (s +:+ String "," rest) = s :: split "," rest.
Proof.
  induction s as [|c s IH]; [reflexivity|]. intros H. simpl in *.
  destruct (Ascii.eqb c ","); [discriminate|]. rewrite (IH H). reflexivity.
Qed.

Lemma split_join fields :
  fields <> [] -> Forall (fun field => occurrences "," field = O) fields ->
  split "," (join "," fields) = fields.
Proof.
  intros N F. induction F as [|field fields P F IH]; [contradiction|].
  destruct fields as [|next fields].
  - apply split_plain, P.
  - change (join "," (field :: next :: fields))
      with (field +:+ String "," (join "," (next :: fields))).
    rewrite (split_field _ _ P), IH by discriminate. reflexivity.
Qed.

Lemma split_length s : length (split "," s) = S (occurrences "," s).
Proof.
  induction s as [|c s IH]; [reflexivity|]. cbn [occurrences split].
  destruct (Ascii.eqb c ","); cbn [length]; [rewrite IH; reflexivity|].
  destruct (split "," s) as [|first more]; [discriminate|]. exact IH.
Qed.

Lemma lowerHex_not_comma c : isLowerHexDigit c = true -> Ascii.eqb c "," = false.
Proof. intros H. apply isLowerHexDigit_chars in H. vm_compute in H.
  repeat (destruct H as [<-|H]; [reflexivity|]). destruct H. Qed.

Lemma LowerHexColor_plain s : LowerHexColor s -> occurrences "," s = O /\ s <> EmptyString.
Proof.
  intros (t & -> & H). split; [|discriminate].
  destruct H as [c1 c2 c3 c4 c5 c6 H1 H2 H3 H4 H5 H6]. cbn [occurrences].
  change (Ascii.eqb "#" ",") with false.
  rewrite (lowerHex_not_comma c1 H1), (lowerHex_not_comma c2 H2), (lowerHex_not_comma c3 H3),
    (lowerHex_not_comma c4 H4), (lowerHex_not_comma c5 H5), (lowerHex_not_comma c6 H6).
  reflexivity.
Qed.

Lemma paletteToHex_fields palette :
  Forall isByteTriple palette ->
  Forall (fun field => occurrences "," field = O) (paletteToHex palette)
  /\ map hexToRgb (paletteToHex palette) = map Some palette.
Proof.
  intros F. induction F as [|rgb palette P F [IH1 IH2]]; [split; [constructor|reflexivity]|].
  destruct (rgbToHex_byteTriple rgb P) as [L E].
  unfold paletteToHex in *. cbn [map]. split.
  - constructor; [apply LowerHexColor_plain, L|exact IH1].
  - rewrite E, IH2. reflexivity.
Qed.

Lemma join_paletteToHex_given palette :
  palette <> [] -> Forall isByteTriple palette ->
  join "," (paletteToHex palette) <> EmptyString.
Proof.
  intros N F. destruct F as [|rgb palette P F]; [contradiction|].
  destruct (rgbToHex_byteTriple rgb P) as [(t & E & _) _].
  unfold join, paletteToHex. cbn [map String.concat]. rewrite E.
  destruct (map (fun color => rgbToHex color) palette); discriminate.
Qed.

(** X4: the palette line the program prints can be given back as
    [--palette]: for a non-empty palette of byte triples, joining
    [paletteToHex] with commas and passing the result as the explicit list
    makes both entry points build the quantizer with exactly that palette. *)
Theorem printed_palette_reusable (e : Env) (args : Args.t) (palette : list (list num))
    (inputPath : string) (image : Image.t) :
  palette <> [] -> Forall isByteTriple palette ->
  Args.palette args = VStr (join "," (paletteToHex palette)) ->
  Args.i args = VStr inputPath -> inputPath <> EmptyString ->
  loadImage e inputPath = Some image ->
  ((truthy (Args.preset args) = true ->
    is_Some (palettes e !! toString e (Args.preset args))) ->
   usedPalette (Png.dither e args) = Some (map Some palette))
  /\ ((truthy (Gif.presetName args) = true ->
       is_Some (palettes e !! toString e (Gif.presetName args))) ->
      is_Some (statSync e inputPath) ->
      usedPalette (Gif.dither e args) = Some (map Some palette)).
Proof.
  intros N F P I NI L.
  destruct (paletteToHex_fields palette F) as [C M].
  assert (NP : paletteToHex palette <> [])
    by (destruct palette; [contradiction|discriminate]).
  pose proof (split_join (paletteToHex palette) NP C) as S.
  pose proof (join_paletteToHex_given palette N F) as G.
  split.
  - intros K.
    assert (Q : Png.selectPalette e args = Some (Arr (paletteToHex palette)))
      by (unfold Png.selectPalette; rewrite P, (andSplit_explicit _ G), S; reflexivity).
    destruct (png_dither_reaches e args _ inputPath image (guard_passes e _ K) Q I NI L)
      as (_ & U & _).
    rewrite U, M. reflexivity.
  - intros K B.
    assert (Q : Gif.selectPalette e args = Some (Arr (paletteToHex palette)))
      by (unfold Gif.selectPalette; rewrite P, (andSplit_explicit _ G), S; reflexivity).
    destruct (gif_dither_reaches e args _ inputPath image (guard_passes e _ K) Q I NI B L)
      as (_ & U & _).
    rewrite U, M. reflexivity.
Qed.

Lemma printed_palette_reusable_witness :
  usedPalette (Png.dither sampleEnv
                 (withPalette (join "," (paletteToHex [[Int 0; Int 0; Int 0];
                                                       [Int 255; Int 255; Int 255]]))
                              inputOnly))
  = Some [Some [Int 0; Int 0; Int 0]; Some [Int 255; Int 255; Int 255]].
Proof.
  refine (proj1 (printed_palette_reusable sampleEnv
                   (withPalette (join "," (paletteToHex [[Int 0; Int 0; Int 0];
                                                         [Int 255; Int 255; Int 255]]))
                                inputOnly)
                   [[Int 0; Int 0; Int 0]; [Int 255; Int 255; Int 255]]
                   "in.png" (sampleImage 26 13 338) _ _ eq_refl eq_refl _ eq_refl) _).
  - discriminate.
  - repeat constructor; eexists _, _, _; (split; [reflexivity|lia]).
  - discriminate.
  - discriminate.
Defined.

(** X5: an explicit list always gives the quantizer one entry per
    comma-separated field, empty fields included: the palette it is built
    with has one entry more than the list has commas, and is never empty. *)
Theorem explicit_palette_length (e : Env) (args : Args.t) (s inputPath : string)
    (image : Image.t) :
  Args.palette args = VStr s -> s <> EmptyString ->
  (truthy (Args.preset args) = true ->
   is_Some (palettes e !! toString e (Args.preset args))) ->
  Args.i args = VStr inputPath -> inputPath <> EmptyString ->
  loadImage e inputPath = Some image ->
  exists used,
    usedPalette (Png.dither e args) = Some used
    /\ length used = S (occurrences "," s)
    /\ (forall i, split "," s !! i = Some EmptyString -> used !! i = Some None).
Proof.
  intros P N K I NI L.
  assert (S : Png.selectPalette e args = Some (Arr (split "," s)))
    by (unfold Png.selectPalette; rewrite P, (andSplit_explicit s N); reflexivity).
  destruct (png_dither_reaches e args (split "," s) inputPath image
              (guard_passes e _ K) S I NI L) as (_ & U & _).
  exists (map hexToRgb (split "," s)). split; [exact U|]. split.
  - rewrite length_map. apply split_length.
  - intros i E.
    change (map hexToRgb (split "," s)) with (hexToRgb <$> split "," s).
    rewrite list_lookup_fmap, E. reflexivity.
Qed.

Lemma explicit_palette_length_witness :
  exists used,
    usedPalette (Png.dither sampleEnv (withPalette "#000000,,#ffffff," inputOnly)) = Some used
    /\ length used = 4%nat.
Proof.
  destruct (explicit_palette_length sampleEnv (withPalette "#000000,,#ffffff," inputOnly)
              "#000000,,#ffffff," "in.png" (sampleImage 26 13 338) eq_refl)
    as (used & U & Len & _); try discriminate; try reflexivity.
  exists used. split; [exact U|exact Len].
Defined.

(** ** Every run of [dither()] *)

Lemma png_dither_runCase e args : runCase e args "-dither.png" (Png.dither e args).
Proof.
  unfold Png.dither.
  destruct (truthy (Args.preset args) && unknownPreset e (Args.preset args)).
  { apply run_quiet. cbn. induction (presetNames e); auto. }
  destruct (Png.selectPalette e args) as [palette|]; [|apply run_quiet; reflexivity].
  destruct (Args.i args) as [| |n|path] eqn:I; unfold js_or; cbn [truthy];
    try (apply run_quiet; reflexivity).
  { destruct b; apply run_quiet; reflexivity. }
  { destruct (negb (PrimFloat.is_zero n || PrimFloat.is_nan n)); apply run_quiet; reflexivity. }
  destruct (String.eqb_spec path "") as [->|N]; cbn [negb];
    [apply run_quiet; reflexivity|].
  destruct (String.length path =? 0)%nat eqn:Len;
    [apply run_quiet; reflexivity|].
  set (report := [Log (MDithering path);
                  Log match statSync e path with
                      | Some bytes => MInputSize bytes
                      | None => MCouldNotRead path
                      end]).
  assert (P : forallb isPrint report = true) by reflexivity.
  destruct (loadImage e path) as [image|] eqn:L; [|apply run_quiet; exact P].
  unfold Png.onImage.
  destruct (canvasSize e args image) as [w h] eqn:C.
  destruct palette as [v|colors|key].
  1, 3: apply (run_map_throws e args _ _ report path image P I L); [|reflexivity];
    rewrite C; reflexivity.
  change (rgbQuantOptions (js_or (Args.serpentine args) (VBool false))
            (map (fun color => hexToRgb color) colors)) with (optionsFor args colors).
  destruct (rgbQuant e (optionsFor args colors) image w h) as [result|] eqn:Q.
  - destruct (writable e (js_or (Args.o args) (VStr (path +:+ "-dither.png")))) eqn:W.
    + eapply (run_written e args _ _ report _ path image colors result P);
        [|exact I|exact N|exact L|exact W| |reflexivity].
      2: { cbn [trace]. rewrite C. cbn [fst snd app]. reflexivity. }
      reflexivity.
    + apply (run_write_throws e args _ _ report path image colors P I L W);
        [|reflexivity].
      rewrite C. reflexivity.
  - apply (run_quantizer_throws e args _ _ report path image colors P I L);
      [|reflexivity].
    rewrite C. reflexivity.
Qed.

Lemma gif_dither_runCase e args : runCase e args "-dither.gif" (Gif.dither e args).
Proof.
  unfold Gif.dither.
  set (silent := js_or (Args.silent args) (VBool false)).
  destruct (truthy (Gif.presetName args) && unknownPreset e (Gif.presetName args)).
  { apply run_quiet. cbn [trace].
    apply forallb_isPrint_app; [apply status_prints|apply listPresets_prints]. }
  destruct (Gif.selectPalette e args) as [palette|]; [|apply run_quiet; reflexivity].
  destruct (Args.i args) as [| |n|path] eqn:I; unfold js_or at 1; cbn [truthy];
    try (apply run_quiet; reflexivity).
  { destruct b; apply run_quiet; reflexivity. }
  { destruct (negb (PrimFloat.is_zero n || PrimFloat.is_nan n)); apply run_quiet; reflexivity. }
  destruct (String.eqb_spec path "") as [->|N]; cbn [negb];
    [apply run_quiet; reflexivity|].
  destruct (String.length path =? 0)%nat eqn:Len;
    [apply run_quiet; reflexivity|].
  destruct (statSync e path) as [inputBytes|].
  2: { apply run_quiet. cbn [trace]. apply forallb_isPrint_app; apply status_prints. }
  set (report := Gif.status silent (MDithering path)
                 ++ Gif.status silent (MInputSize inputBytes)).
  assert (P : forallb isPrint report = true)
    by (apply forallb_isPrint_app; apply status_prints).
  destruct (loadImage e path) as [image|] eqn:L; [|apply run_quiet; exact P].
  unfold Gif.onImage.
  destruct (canvasSize e args image) as [w h] eqn:C.
  destruct palette as [v|colors|key].
  1, 3: apply (run_map_throws e args _ _ report path image P I L); [|reflexivity];
    rewrite C; reflexivity.
  change (rgbQuantOptions (js_or (Args.serpentine args) (VBool false))
            (map (fun color => hexToRgb color) colors)) with (optionsFor args colors).
  destruct (rgbQuant e (optionsFor args colors) image w h) as [result|] eqn:Q.
  - destruct (writable e (js_or (Args.o args) (VStr (path +:+ "-dither.gif")))) eqn:W.
    + eapply (run_written e args _ _ report _ path image colors result P);
        [|exact I|exact N|exact L|exact W| |reflexivity].
      2: { cbn [trace]. rewrite C. cbn [fst snd app]. reflexivity. }
      repeat apply forallb_isPrint_app; try apply status_prints.
      destruct (statOutput e _); [apply forallb_isPrint_app|]; apply status_prints.
    + apply (run_write_throws e args _ _ report path image colors P I L W);
        [|reflexivity].
      rewrite C. reflexivity.
  - apply (run_quantizer_throws e args _ _ report path image colors P I L);
      [|reflexivity].
    rewrite C. reflexivity.
Qed.

Lemma prints_nothing_else logs :
  forallb isPrint logs = true ->
  quantizers (mkRun logs Returned) = [] /\ written (mkRun logs Returned) = [].
Proof.
  unfold quantizers, written. cbn [trace].
  induction logs as [|ev logs IH]; [auto|].
  cbn [forallb]. intros H. apply andb_true_iff in H as [P H].
  destruct ev; try discriminate. cbn. exact (IH H).
Qed.

Lemma prints_around logs core logs' :
  forallb isPrint logs = true -> forallb isPrint logs' = true ->
  quantizers (mkRun (logs ++ core ++ logs') Returned) = quantizers (mkRun core Returned)
  /\ written (mkRun (logs ++ core ++ logs') Returned) = written (mkRun core Returned)
  /\ writes (mkRun (logs ++ core ++ logs') Returned) = writes (mkRun core Returned)
  /\ dithers (mkRun (logs ++ core ++ logs') Returned) = dithers (mkRun core Returned)
  /\ quantizes (mkRun (logs ++ core ++ logs') Returned) = quantizes (mkRun core Returned)
  /\ canvasOf (mkRun (logs ++ core ++ logs') Returned) = canvasOf (mkRun core Returned)
  /\ effects (mkRun (logs ++ core ++ logs') Returned) = effects (mkRun core Returned).
Proof.
  intros P P'.
  assert (T : forall t, forallb isPrint t = true ->
                omap (fun ev => match ev with NewRgbQuant o => Some o | _ => None end) t = []
                /\ omap (fun ev => match ev with
                                   | WriteFile path px => Some (path, px)
                                   | _ => None end) t = []
                /\ omap (fun ev => match ev with
                                   | CreateCanvas w h => Some (w, h)
                                   | _ => None end) t = []
                /\ existsb (fun ev => match ev with WriteFile _ _ => true | _ => false end) t
                   = false
                /\ existsb (fun ev => match ev with Reduce => true | _ => false end) t = false
                /\ existsb (fun ev => match ev with NewRgbQuant _ => true | _ => false end) t
                   = false
                /\ List.filter (fun ev => negb (isPrint ev)) t = []).
  { induction t as [|ev t IH]; [repeat split|].
    cbn [forallb]. intros H. apply andb_true_iff in H as [Q H].
    destruct ev; try discriminate. cbn. exact (IH H). }
  destruct (T logs P) as (A1 & A2 & A3 & A4 & A5 & A6 & A7).
  destruct (T logs' P') as (B1 & B2 & B3 & B4 & B5 & B6 & B7).
  unfold quantizers, written, writes, dithers, quantizes, canvasOf, effects. cbn [trace].
  rewrite !omap_app, !existsb_app, !List.filter_app,
    A1, A2, A3, A4, A5, A6, A7, B1, B2, B3, B4, B5, B6, B7, !app_nil_r, !orb_false_r.
  repeat split.
Qed.

Lemma observers_trace r r' :
  trace r = trace r' ->
  quantizers r = quantizers r' /\ written r = written r' /\ writes r = writes r'
  /\ dithers r = dithers r' /\ quantizes r = quantizes r' /\ canvasOf r = canvasOf r'
  /\ effects r = effects r'.
Proof.
  unfold quantizers, written, writes, dithers, quantizes, canvasOf, effects.
  intros ->. repeat split.
Qed.

Lemma runCase_orderly e args suffix r : runCase e args suffix r -> orderly r.
Proof.
  intros [Q | logs inputPath image P I L T O | logs inputPath image colors P I L T O
            | logs inputPath image colors P I L W T O
            | logs logs' inputPath image colors result P P' I N L W T O].
  - destruct (observers_trace r (mkRun (trace r ++ [] ++ []) Returned)) as
      (E1 & E2 & E3 & E4 & E5 & E6 & _); [cbn; rewrite app_nil_r; reflexivity|].
    destruct (prints_around (trace r) [] [] Q eq_refl) as (F1 & F2 & F3 & F4 & F5 & F6 & _).
    unfold orderly. rewrite E1, E2, E3, E4, E5, E6, F1, F2, F3, F4, F5, F6. cbn.
    repeat split; intros; try lia; try discriminate; try assumption; try reflexivity;
      try (eexists; reflexivity).
  - destruct (observers_trace r (mkRun (logs ++ [CreateCanvas
                 (fst (canvasSize e args image)) (snd (canvasSize e args image))] ++ [])
                 Returned)) as (E1 & E2 & E3 & E4 & E5 & E6 & _); [exact T|].
    destruct (prints_around logs [CreateCanvas
                 (fst (canvasSize e args image)) (snd (canvasSize e args image))] []
                 P eq_refl) as (F1 & F2 & F3 & F4 & F5 & F6 & _).
    unfold orderly. rewrite E1, E2, E3, E4, E5, E6, F1, F2, F3, F4, F5, F6. cbn.
    repeat split; intros; try lia; try discriminate; try assumption; try reflexivity;
      try (eexists; reflexivity).
  - destruct (observers_trace r (mkRun (logs ++ [CreateCanvas
                 (fst (canvasSize e args image)) (snd (canvasSize e args image));
                 NewRgbQuant (optionsFor args colors)] ++ [])
                 Returned)) as (E1 & E2 & E3 & E4 & E5 & E6 & _); [exact T|].
    destruct (prints_around logs [CreateCanvas
                 (fst (canvasSize e args image)) (snd (canvasSize e args image));
                 NewRgbQuant (optionsFor args colors)] []
                 P eq_refl) as (F1 & F2 & F3 & F4 & F5 & F6 & _).
    unfold orderly. rewrite E1, E2, E3, E4, E5, E6, F1, F2, F3, F4, F5, F6. cbn.
    repeat split; intros; try lia; try discriminate; try assumption; try reflexivity;
      try (eexists; reflexivity).
  - destruct (observers_trace r (mkRun (logs ++ [CreateCanvas
                 (fst (canvasSize e args image)) (snd (canvasSize e args image));
                 NewRgbQuant (optionsFor args colors); Reduce] ++ [])
                 Returned)) as (E1 & E2 & E3 & E4 & E5 & E6 & _); [exact T|].
    destruct (prints_around logs [CreateCanvas
                 (fst (canvasSize e args image)) (snd (canvasSize e args image));
                 NewRgbQuant (optionsFor args colors); Reduce] []
                 P eq_refl) as (F1 & F2 & F3 & F4 & F5 & F6 & _).
    unfold orderly. rewrite E1, E2, E3, E4, E5, E6, F1, F2, F3, F4, F5, F6. cbn.
    repeat split; intros; try lia; try discriminate; try assumption; try reflexivity;
      try (eexists; reflexivity).
  - destruct (observers_trace r (mkRun (logs ++ [CreateCanvas
                 (fst (canvasSize e args image)) (snd (canvasSize e args image));
                 NewRgbQuant (optionsFor args colors); Reduce;
                 WriteFile (js_or (Args.o args) (VStr (inputPath +:+ suffix)))
                           (Quant.ditherResult result)] ++ logs')
                 Returned)) as (E1 & E2 & E3 & E4 & E5 & E6 & _); [exact T|].
    destruct (prints_around logs [CreateCanvas
                 (fst (canvasSize e args image)) (snd (canvasSize e args image));
                 NewRgbQuant (optionsFor args colors); Reduce;
                 WriteFile (js_or (Args.o args) (VStr (inputPath +:+ suffix)))
                           (Quant.ditherResult result)] logs'
                 P P') as (F1 & F2 & F3 & F4 & F5 & F6 & _).
    unfold orderly. rewrite E1, E2, E3, E4, E5, E6, F1, F2, F3, F4, F5, F6. cbn.
    repeat split; intros; try lia; try discriminate; try assumption; try reflexivity;
      try (eexists; reflexivity).
Qed.


Lemma runCase_quantizers e args suffix r options :
  runCase e args suffix r -> In options (quantizers r) ->
  exists colors, options = optionsFor args colors.
Proof.
  intros [Q | logs inputPath image P I L T O | logs inputPath image colors P I L T O
            | logs inputPath image colors P I L W T O
            | logs logs' inputPath image colors result P P' I N L W T O].
  - destruct (observers_trace r (mkRun (trace r ++ [] ++ []) Returned)) as (E1 & _);
      [cbn; rewrite app_nil_r; reflexivity|].
    destruct (prints_around (trace r) [] [] Q eq_refl) as (F1 & _).
    rewrite E1, F1. intros [].
  - destruct (observers_trace r (mkRun (logs ++ [CreateCanvas
                 (fst (canvasSize e args image)) (snd (canvasSize e args image))] ++ [])
                 Returned)) as (E1 & _); [exact T|].
    destruct (prints_around logs [CreateCanvas
                 (fst (canvasSize e args image)) (snd (canvasSize e args image))] []
                 P eq_refl) as (F1 & _).
    rewrite E1, F1. intros [].
  - destruct (observers_trace r (mkRun (logs ++ [CreateCanvas
                 (fst (canvasSize e args image)) (snd (canvasSize e args image));
                 NewRgbQuant (optionsFor args colors)] ++ [])
                 Returned)) as (E1 & _); [exact T|].
    destruct (prints_around logs [CreateCanvas
                 (fst (canvasSize e args image)) (snd (canvasSize e args image));
                 NewRgbQuant (optionsFor args colors)] []
                 P eq_refl) as (F1 & _).
    rewrite E1, F1. intros [<-|[]]. exists colors. reflexivity.
  - destruct (observers_trace r (mkRun (logs ++ [CreateCanvas
                 (fst (canvasSize e args image)) (snd (canvasSize e args image));
                 NewRgbQuant (optionsFor args colors); Reduce] ++ [])
                 Returned)) as (E1 & _); [exact T|].
    destruct (prints_around logs [CreateCanvas
                 (fst (canvasSize e args image)) (snd (canvasSize e args image));
                 NewRgbQuant (optionsFor args colors); Reduce] []
                 P eq_refl) as (F1 & _).
    rewrite E1, F1. intros [<-|[]]. exists colors. reflexivity.
  - destruct (observers_trace r (mkRun (logs ++ [CreateCanvas
                 (fst (canvasSize e args image)) (snd (canvasSize e args image));
                 NewRgbQuant (optionsFor args colors); Reduce;
                 WriteFile (js_or (Args.o args) (VStr (inputPath +:+ suffix)))
                           (Quant.ditherResult result)] ++ logs')
                 Returned)) as (E1 & _); [exact T|].
    destruct (prints_around logs [CreateCanvas
                 (fst (canvasSize e args image)) (snd (canvasSize e args image));
                 NewRgbQuant (optionsFor args colors); Reduce;
                 WriteFile (js_or (Args.o args) (VStr (inputPath +:+ suffix)))
                           (Quant.ditherResult result)] logs'
                 P P') as (F1 & _).
    rewrite E1, F1. intros [<-|[]]. exists colors. reflexivity.
Qed.

Lemma conversionOf_nullOrBytes entry converted :
  conversionOf entry converted -> nullOrBytes converted.
Proof.
  intros [(_ & r & g & b & -> & Hr & Hg & Hb) | (_ & ->)].
  - right. eexists. split; [reflexivity|]. exists r, g, b. auto.
  - left. reflexivity.
Qed.

Lemma optionsFor_fixed args colors :
  optionsFor args colors
  = rgbQuantOptions (js_or (Args.serpentine args) (VBool false))
                    (Quant.palette (optionsFor args colors))
  /\ Forall nullOrBytes (Quant.palette (optionsFor args colors)).
Proof.
  split; [reflexivity|]. cbn [optionsFor rgbQuantOptions Quant.palette].
  induction colors as [|entry colors IH]; cbn [map]; constructor; [|exact IH].
  apply (conversionOf_nullOrBytes entry), hexToRgb_conversion.
Qed.

(** X7: whatever the arguments, a quantizer built by either entry point
    has the fixed options of [rgbQuantOptions] (Floyd-Steinberg kernel, 8
    colours, ...), with only [dithSerp] taken from [--serpentine] (false
    when absent) and [palette] varying; and every palette entry it gets is
    either null or a triple of values in 0-255. *)
Theorem quantizer_options_fixed (e : Env) (args : Args.t) (options : Quant.t) :
  In options (quantizers (Png.dither e args)) \/ In options (quantizers (Gif.dither e args)) ->
  options = rgbQuantOptions (js_or (Args.serpentine args) (VBool false))
                            (Quant.palette options)
  /\ Forall nullOrBytes (Quant.palette options).
Proof.
  intros [H|H].
  - destruct (runCase_quantizers _ _ _ _ _ (png_dither_runCase e args) H) as [colors ->].
    apply optionsFor_fixed.
  - destruct (runCase_quantizers _ _ _ _ _ (gif_dither_runCase e args) H) as [colors ->].
    apply optionsFor_fixed.
Qed.

Lemma quantizer_options_fixed_witness :
  Forall nullOrBytes [None; Some [Int 0; Int 255; Int 0]].
Proof.
  refine (proj2 (quantizer_options_fixed sampleEnv (withPalette "red,#00ff00" inputOnly)
                   (rgbQuantOptions (VBool false) [None; Some [Int 0; Int 255; Int 0]]) _)).
  left. vm_compute. left. reflexivity.
Defined.

Lemma append_longer a b : b <> EmptyString -> a +:+ b <> a.
Proof.
  intros N E. apply N.
  assert (L : String.length (a +:+ b) = (String.length a + String.length b)%nat).
  { clear. induction a as [|c a IH]; [reflexivity|]. simpl. f_equal. exact IH. }
  rewrite E in L. destruct b; [reflexivity|cbn in L; lia].
Qed.

Lemma runCase_written e args suffix r outputPath pixels :
  suffix <> EmptyString ->
  runCase e args suffix r -> In (outputPath, pixels) (written r) ->
  exists inputPath,
    Args.i args = VStr inputPath /\ inputPath <> EmptyString
    /\ outputPath = js_or (Args.o args) (VStr (inputPath +:+ suffix))
    /\ (truthy (Args.o args) = false ->
        outputPath = VStr (inputPath +:+ suffix) /\ outputPath <> VStr inputPath)
    /\ (truthy (Args.o args) = true -> outputPath = Args.o args).
Proof.
  intros NS [Q | logs inputPath image P I L T O | logs inputPath image colors P I L T O
               | logs inputPath image colors P I L W T O
               | logs logs' inputPath image colors result P P' I N L W T O].
  - destruct (observers_trace r (mkRun (trace r ++ [] ++ []) Returned)) as (_ & E2 & _);
      [cbn; rewrite app_nil_r; reflexivity|].
    destruct (prints_around (trace r) [] [] Q eq_refl) as (_ & F2 & _).
    rewrite E2, F2. intros [].
  - destruct (observers_trace r (mkRun (logs ++ [CreateCanvas
                 (fst (canvasSize e args image)) (snd (canvasSize e args image))] ++ [])
                 Returned)) as (_ & E2 & _); [exact T|].
    destruct (prints_around logs [CreateCanvas
                 (fst (canvasSize e args image)) (snd (canvasSize e args image))] []
                 P eq_refl) as (_ & F2 & _).
    rewrite E2, F2. intros [].
  - destruct (observers_trace r (mkRun (logs ++ [CreateCanvas
                 (fst (canvasSize e args image)) (snd (canvasSize e args image));
                 NewRgbQuant (optionsFor args colors)] ++ [])
                 Returned)) as (_ & E2 & _); [exact T|].
    destruct (prints_around logs [CreateCanvas
                 (fst (canvasSize e args image)) (snd (canvasSize e args image));
                 NewRgbQuant (optionsFor args colors)] []
                 P eq_refl) as (_ & F2 & _).
    rewrite E2, F2. intros [].
  - destruct (observers_trace r (mkRun (logs ++ [CreateCanvas
                 (fst (canvasSize e args image)) (snd (canvasSize e args image));
                 NewRgbQuant (optionsFor args colors); Reduce] ++ [])
                 Returned)) as (_ & E2 & _); [exact T|].
    destruct (prints_around logs [CreateCanvas
                 (fst (canvasSize e args image)) (snd (canvasSize e args image));
                 NewRgbQuant (optionsFor args colors); Reduce] []
                 P eq_refl) as (_ & F2 & _).
    rewrite E2, F2. intros [].
  - destruct (observers_trace r (mkRun (logs ++ [CreateCanvas
                 (fst (canvasSize e args image)) (snd (canvasSize e args image));
                 NewRgbQuant (optionsFor args colors); Reduce;
                 WriteFile (js_or (Args.o args) (VStr (inputPath +:+ suffix)))
                           (Quant.ditherResult result)] ++ logs')
                 Returned)) as (_ & E2 & _); [exact T|].
    destruct (prints_around logs [CreateCanvas
                 (fst (canvasSize e args image)) (snd (canvasSize e args image));
                 NewRgbQuant (optionsFor args colors); Reduce;
                 WriteFile (js_or (Args.o args) (VStr (inputPath +:+ suffix)))
                           (Quant.ditherResult result)] logs'
                 P P') as (_ & F2 & _).
    rewrite E2, F2. intros [E|[]]. injection E as <- _.
    exists inputPath. split; [exact I|]. split; [exact N|]. split; [reflexivity|].
    unfold js_or. split; intros ->; [|reflexivity].
    split; [reflexivity|]. intros E. injection E as E.
    exact (append_longer inputPath suffix NS E).
Qed.

(** X8: an image written by [dither()] goes to [-o] when that option is
    truthy, and otherwise to the input path with "-dither.png" (index.js) or
    "-dither.gif" (part_000) appended, which is never the input path
    itself: without [-o] the input file is not overwritten. *)
Theorem output_path_default (e : Env) (args : Args.t) (outputPath : jsval) (pixels : list Z) :
  (In (outputPath, pixels) (written (Png.dither e args)) ->
   exists inputPath,
     Args.i args = VStr inputPath /\ inputPath <> EmptyString
     /\ outputPath = js_or (Args.o args) (VStr (inputPath +:+ "-dither.png"))
     /\ (truthy (Args.o args) = false ->
         outputPath = VStr (inputPath +:+ "-dither.png") /\ outputPath <> VStr inputPath)
     /\ (truthy (Args.o args) = true -> outputPath = Args.o args))
  /\ (In (outputPath, pixels) (written (Gif.dither e args)) ->
      exists inputPath,
        Args.i args = VStr inputPath /\ inputPath <> EmptyString
        /\ outputPath = js_or (Args.o args) (VStr (inputPath +:+ "-dither.gif"))
        /\ (truthy (Args.o args) = false ->
            outputPath = VStr (inputPath +:+ "-dither.gif") /\ outputPath <> VStr inputPath)
        /\ (truthy (Args.o args) = true -> outputPath = Args.o args)).
Proof.
  split; intros H.
  - apply (runCase_written e args "-dither.png" (Png.dither e args) outputPath pixels);
      [discriminate|apply png_dither_runCase|exact H].
  - apply (runCase_written e args "-dither.gif" (Gif.dither e args) outputPath pixels);
      [discriminate|apply gif_dither_runCase|exact H].
Qed.

Lemma output_path_default_witness :
  exists inputPath,
    Args.i inputOnly = VStr inputPath
    /\ VStr "in.png-dither.png" = js_or (Args.o inputOnly) (VStr (inputPath +:+ "-dither.png")).
Proof.
  destruct (proj1 (output_path_default sampleEnv inputOnly (VStr "in.png-dither.png") []))
    as (inputPath & I & _ & E & _).
  - vm_compute. left. reflexivity.
  - exists inputPath. split; [exact I|exact E].
Defined.

(** ** The palette expression, case by case *)

Lemma andSplit_undefined : andSplit VUndefined = Some (Prim VUndefined).
Proof. reflexivity. Qed.

Lemma andLookup_known e name colors :
  truthy name = true -> palettes e !! toString e name = Some colors ->
  andLookup e name = Arr colors.
Proof. intros T K. unfold andLookup, getPreset. rewrite T, K. reflexivity. Qed.

(** X9: without [--palette], a known preset supplies the palette: the
    quantizer is built with the preset's colours, converted by [hexToRgb].
    In index.js the preset is named by [--preset]; in part_000 by
    [--preset], or by [-p] when [--preset] is absent or falsy. *)
Theorem preset_palette_used (e : Env) (args : Args.t) (colors : list string)
    (inputPath : string) (image : Image.t) :
  Args.palette args = VUndefined ->
  Args.i args = VStr inputPath -> inputPath <> EmptyString ->
  loadImage e inputPath = Some image ->
  (truthy (Args.preset args) = true ->
   palettes e !! toString e (Args.preset args) = Some colors ->
   usedPalette (Png.dither e args) = Some (map hexToRgb colors))
  /\ (truthy (Gif.presetName args) = true ->
      palettes e !! toString e (Gif.presetName args) = Some colors ->
      is_Some (statSync e inputPath) ->
      usedPalette (Gif.dither e args) = Some (map hexToRgb colors))
  /\ (truthy (Args.preset args) = false -> Gif.presetName args = Args.p args).
Proof.
  intros P I NI L. split; [|split].
  - intros T K.
    assert (S : Png.selectPalette e args = Some (Arr colors))
      by (unfold Png.selectPalette; rewrite P, andSplit_undefined,
            (andLookup_known e _ colors T K); reflexivity).
    apply (png_dither_reaches e args colors inputPath image
             (guard_known e _ T (ex_intro _ colors K)) S I NI L).
  - intros T K B.
    assert (S : Gif.selectPalette e args = Some (Arr colors))
      by (unfold Gif.selectPalette; rewrite P, andSplit_undefined,
            (andLookup_known e _ colors T K); reflexivity).
    apply (gif_dither_reaches e args colors inputPath image
             (guard_known e _ T (ex_intro _ colors K)) S I NI B L).
  - intros F. unfold Gif.presetName, js_or. rewrite F. reflexivity.
Qed.

Lemma preset_palette_used_witness :
  usedPalette (Gif.dither sampleEnv (withP "gameboy" inputOnly))
  = Some (map hexToRgb ["#0f380f"; "#306230"; "#8bac0f"; "#9bbc0f"]%string).
Proof.
  refine (proj1 (proj2 (preset_palette_used sampleEnv (withP "gameboy" inputOnly)
                          ["#0f380f"; "#306230"; "#8bac0f"; "#9bbc0f"]%string
                          "in.png" (sampleImage 26 13 338) eq_refl eq_refl _ eq_refl))
                eq_refl _ _).
  - discriminate.
  - vm_compute. reflexivity.
  - eexists. reflexivity.
Defined.

Lemma selection_falsy (v : jsval) (other : value) :
  truthy v = false -> v <> VUndefined ->
  andSplit v = Some (Prim v) /\ coalesce (coalesce (Prim v) other) (Arr []) = Prim v.
Proof.
  intros F N. unfold andSplit. rewrite F. split; [reflexivity|].
  destruct v; try reflexivity. contradiction.
Qed.

(** X10: a [--palette] that is present but falsy (the empty string of
    [--palette=], [false], 0) is kept as the palette: [??] falls back on
    the preset only for [undefined].  So even with a known preset, the run
    creates the canvas and then fails on [palette.map], without building a
    quantizer or writing an image. *)
Theorem falsy_palette_blocks_preset (e : Env) (args : Args.t) (inputPath : string)
    (image : Image.t) :
  truthy (Args.palette args) = false -> Args.palette args <> VUndefined ->
  Args.i args = VStr inputPath -> inputPath <> EmptyString ->
  loadImage e inputPath = Some image ->
  Png.selectPalette e args = Some (Prim (Args.palette args))
  /\ Gif.selectPalette e args = Some (Prim (Args.palette args))
  /\ ((truthy (Args.preset args) = true ->
       is_Some (palettes e !! toString e (Args.preset args))) ->
      outcome (Png.dither e args) = Thrown "palette.map is not a function"
      /\ canvasOf (Png.dither e args) = Some (canvasSize e args image)
      /\ quantizes (Png.dither e args) = false
      /\ writes (Png.dither e args) = false)
  /\ ((truthy (Gif.presetName args) = true ->
       is_Some (palettes e !! toString e (Gif.presetName args))) ->
      is_Some (statSync e inputPath) ->
      outcome (Gif.dither e args) = Thrown "palette.map is not a function"
      /\ canvasOf (Gif.dither e args) = Some (canvasSize e args image)
      /\ quantizes (Gif.dither e args) = false
      /\ writes (Gif.dither e args) = false).
Proof.
  intros F N I NI L.
  assert (SP : Png.selectPalette e args = Some (Prim (Args.palette args))).
  { unfold Png.selectPalette.
    destruct (selection_falsy _ (andLookup e (Args.preset args)) F N) as [-> ->].
    reflexivity. }
  assert (SG : Gif.selectPalette e args = Some (Prim (Args.palette args))).
  { unfold Gif.selectPalette.
    destruct (selection_falsy _ (andLookup e (Gif.presetName args)) F N) as [-> ->].
    reflexivity. }
  split; [exact SP|]. split; [exact SG|]. split.
  - intros K. unfold Png.dither. rewrite (guard_passes e _ K), SP, I.
    destruct (inputPath_given inputPath NI) as [-> ->]. rewrite L.
    unfold Png.onImage. destruct (canvasSize e args image) as [w h].
    cbn [trace outcome]. split; [reflexivity|].
    destruct (prints_then [Log (MDithering inputPath);
                           Log match statSync e inputPath with
                               | Some bytes => MInputSize bytes
                               | None => MCouldNotRead inputPath
                               end] [CreateCanvas w h]
                (Thrown "palette.map is not a function") eq_refl) as (Q & W & _ & C).
    cbn [app] in *. rewrite Q, W, C. repeat split.
  - intros K [inputBytes B]. unfold Gif.dither. rewrite (guard_passes e _ K), SG, I.
    destruct (inputPath_given inputPath NI) as [-> ->]. rewrite B, L.
    unfold Gif.onImage. destruct (canvasSize e args image) as [w h].
    cbn [trace outcome]. split; [reflexivity|].
    destruct (prints_then
                (Gif.status (js_or (Args.silent args) (VBool false)) (MDithering inputPath)
                 ++ Gif.status (js_or (Args.silent args) (VBool false))
                      (MInputSize inputBytes))
                [CreateCanvas w h] (Thrown "palette.map is not a function")) as (Q & W & _ & C).
    { apply forallb_isPrint_app; apply status_prints. }
    rewrite Q, W, C. repeat split.
Qed.

Lemma falsy_palette_blocks_preset_witness :
  outcome (Png.dither sampleEnv (withPalette "" (withPreset "gameboy" inputOnly)))
  = Thrown "palette.map is not a function"
  /\ quantizes (Png.dither sampleEnv (withPalette "" (withPreset "gameboy" inputOnly))) = false.
Proof.
  destruct (falsy_palette_blocks_preset sampleEnv
              (withPalette "" (withPreset "gameboy" inputOnly)) "in.png"
              (sampleImage 26 13 338) eq_refl) as (_ & _ & P & _);
    try discriminate; try reflexivity.
  destruct P as (O & _ & Q & _).
  - intros _. eexists. vm_compute. reflexivity.
  - split; [exact O|exact Q].
Defined.

(** X11: a truthy [--palette] that is not a string (minimist gives [true]
    for a bare [--palette] and a number for a numeric value) has no
    [split]: once the unknown-preset guard is passed, [dither()] throws a
    TypeError before it prints or reads anything, in both entry points. *)
Theorem non_string_palette_throws (e : Env) (args : Args.t) :
  truthy (Args.palette args) = true ->
  (forall s, Args.palette args <> VStr s) ->
  ((truthy (Args.preset args) = true ->
    is_Some (palettes e !! toString e (Args.preset args))) ->
   Png.dither e args = mkRun [] (Thrown "args.palette.split is not a function"))
  /\ ((truthy (Gif.presetName args) = true ->
       is_Some (palettes e !! toString e (Gif.presetName args))) ->
      Gif.dither e args = mkRun [] (Thrown "args.palette.split is not a function")).
Proof.
  intros T N.
  assert (A : andSplit (Args.palette args) = None).
  { unfold andSplit. rewrite T. destruct (Args.palette args) as [| | |s]; try reflexivity.
    exfalso. exact (N s eq_refl). }
  split; intros K.
  - unfold Png.dither, Png.selectPalette. rewrite (guard_passes e _ K), A. reflexivity.
  - unfold Gif.dither, Gif.selectPalette. rewrite (guard_passes e _ K), A. reflexivity.
Qed.

Lemma non_string_palette_throws_witness :
  Png.dither sampleEnv
    (Args.make (VBool true) VUndefined VUndefined VUndefined VUndefined (VStr "in.png")
               VUndefined VUndefined VUndefined VUndefined VUndefined)
  = mkRun [] (Thrown "args.palette.split is not a function").
Proof.
  refine (proj1 (non_string_palette_throws sampleEnv
                   (Args.make (VBool true) VUndefined VUndefined VUndefined VUndefined
                              (VStr "in.png") VUndefined VUndefined VUndefined VUndefined
                              VUndefined) eq_refl _) _).
  - discriminate.
  - discriminate.
Defined.

(** ** [--silent] in part_000 *)

Lemma effects_status silent m :
  List.filter (fun ev => negb (isPrint ev)) (Gif.status silent m) = [].
Proof. unfold Gif.status. destruct (truthy silent); reflexivity. Qed.

Lemma effects_listPresets e args silent :
  List.filter (fun ev => negb (isPrint ev)) (Gif.listPresets e args silent) = [].
Proof.
  pose proof (listPresets_prints e args silent) as P.
  induction (Gif.listPresets e args silent) as [|ev t IH]; [reflexivity|].
  cbn [forallb] in P. apply andb_true_iff in P as [Q P].
  destruct ev; try discriminate. cbn. exact (IH P).
Qed.

(** X12: in part_000, [--silent] changes nothing but the printing: with
    any value of the option, [dither()] does the same things besides
    printing (canvas, quantizer, written image) and ends the same way; and
    when the value is truthy it prints nothing at all. *)
Theorem silent_only_mutes (e : Env) (args : Args.t) (silent : jsval) :
  effects (Gif.dither e (withSilence silent args)) = effects (Gif.dither e args)
  /\ outcome (Gif.dither e (withSilence silent args)) = outcome (Gif.dither e args)
  /\ (truthy silent = true ->
      trace (Gif.dither e (withSilence silent args)) = effects (Gif.dither e args)).
Proof.
  unfold Gif.dither, effects.
  change (Gif.presetName (withSilence silent args)) with (Gif.presetName args).
  change (Gif.selectPalette e (withSilence silent args)) with (Gif.selectPalette e args).
  change (Args.i (withSilence silent args)) with (Args.i args).
  change (Args.silent (withSilence silent args)) with silent.
  assert (TS : truthy silent = true -> truthy (js_or silent (VBool false)) = true)
    by (intros S; rewrite truthy_or_false; exact S).
  destruct (truthy (Gif.presetName args) && unknownPreset e (Gif.presetName args)).
  { cbn [trace outcome].
    rewrite !List.filter_app, !effects_status, !effects_listPresets.
    repeat split. intros S.
    rewrite status_silent, listPresets_silent by exact (TS S). reflexivity. }
  destruct (Gif.selectPalette e args) as [palette|]; [|repeat split].
  destruct (js_or (Args.i args) (VStr "")) as [| | |inputPath];
    [repeat split|repeat split|repeat split|].
  destruct (String.length inputPath =? 0)%nat; [repeat split|].
  destruct (statSync e inputPath) as [inputBytes|].
  2: { cbn [trace outcome]. rewrite !List.filter_app, !effects_status.
       repeat split. intros S. rewrite !status_silent by exact (TS S). reflexivity. }
  destruct (loadImage e inputPath) as [image|].
  2: { cbn [trace outcome]. rewrite !List.filter_app, !effects_status.
       repeat split. intros S. rewrite !status_silent by exact (TS S). reflexivity. }
  unfold Gif.onImage.
  change (canvasSize e (withSilence silent args) image) with (canvasSize e args image).
  change (Args.serpentine (withSilence silent args)) with (Args.serpentine args).
  change (Args.o (withSilence silent args)) with (Args.o args).
  destruct (canvasSize e args image) as [w h].
  destruct palette as [v|colors|key].
  1, 3: cbn [trace outcome]; rewrite !List.filter_app, !effects_status;
    repeat split; intros S; rewrite !status_silent by exact (TS S); reflexivity.
  destruct (rgbQuant e _ image w h) as [result|].
  - destruct (writable e (js_or (Args.o args) (VStr (inputPath +:+ "-dither.gif")))).
    + cbn [trace outcome].
      destruct (statOutput e (js_or (Args.o args) (VStr (inputPath +:+ "-dither.gif"))));
        rewrite !List.filter_app, !effects_status;
        (repeat split; intros S; rewrite !status_silent by exact (TS S); reflexivity).
    + cbn [trace outcome]. rewrite !List.filter_app, !effects_status.
      repeat split. intros S. rewrite !status_silent by exact (TS S). reflexivity.
  - cbn [trace outcome]. rewrite !List.filter_app, !effects_status.
    repeat split. intros S. rewrite !status_silent by exact (TS S). reflexivity.
Qed.

Lemma silent_only_mutes_witness :
  trace (Gif.dither sampleEnv (withSilence (VBool true) inputOnly))
  = [CreateCanvas 26 13; NewRgbQuant (rgbQuantOptions (VBool false) []); Reduce;
     WriteFile (VStr "in.png-dither.gif") []].
Proof.
  destruct (silent_only_mutes sampleEnv inputOnly (VBool true)) as (_ & _ & T).
  rewrite (T eq_refl). vm_compute. reflexivity.
Defined.

(** ** Listing the presets *)

Lemma presetNames_In e name : In name (presetNames e) <-> is_Some (palettes e !! name).
Proof.
  unfold presetNames. rewrite in_map_iff. split.
  - intros ([k colors] & <- & I). exists colors.
    apply list_elem_of_In, elem_of_map_to_list in I. exact I.
  - intros [colors K]. exists (name, colors). split; [reflexivity|].
    apply list_elem_of_In, elem_of_map_to_list. exact K.
Qed.

(** The listing of [src/index.js], lines 25-31: the lines it holds. *)
Lemma listing_names e (verbose : bool) name :
  In (Log (MPresetName name))
     (Log MAvailablePresets
      :: flat_map
           (fun name =>
              Log (MPresetName name)
              :: (if verbose
                  then [Log (MPresetColors (default [] (palettes e !! name)))]
                  else []))
           (presetNames e))
  <-> is_Some (palettes e !! name).
Proof.
  rewrite <- presetNames_In. split.
  - intros [E|I]; [discriminate|]. apply in_flat_map in I as (name' & I & [E|M]).
    + injection E as <-. exact I.
    + destruct verbose; [destruct M as [E|[]]; discriminate|destruct M].
  - intros I. right. apply in_flat_map. exists name. split; [exact I|left; reflexivity].
Qed.

Lemma listing_colors e (verbose : bool) colors :
  In (Log (MPresetColors colors))
     (Log MAvailablePresets
      :: flat_map
           (fun name =>
              Log (MPresetName name)
              :: (if verbose
                  then [Log (MPresetColors (default [] (palettes e !! name)))]
                  else []))
           (presetNames e))
  <-> verbose = true /\ exists name, palettes e !! name = Some colors.
Proof.
  split.
  - intros [E|I]; [discriminate|]. apply in_flat_map in I as (name & I & [E|M]);
      [discriminate|].
    destruct verbose; [|destruct M]. split; [reflexivity|].
    destruct M as [E|[]]. injection E as <-.
    apply presetNames_In in I as [found K]. exists name. rewrite K. reflexivity.
  - intros (-> & name & K). right. apply in_flat_map. exists name. split.
    + apply presetNames_In. exists colors. exact K.
    + right. rewrite K. left. reflexivity.
Qed.

(** [listPresets()] when [status] prints. *)
Lemma gif_listing e args silent :
  truthy silent = false ->
  Gif.listPresets e args silent
  = Log MAvailablePresets
    :: flat_map
         (fun name =>
            Log (MPresetName name)
            :: (if truthy (Args.v args)
                then [Log (MPresetColors (default [] (palettes e !! name)))]
                else []))
         (presetNames e).
Proof.
  intros S. unfold Gif.listPresets, Gif.status. rewrite S. reflexivity.
Qed.

(** X13: with [-l], both entry points only list the presets, whatever the
    other options are ([-i] and [--silent] included): they print the same
    lines, touch no file and return; a preset name is printed exactly when
    it is a key of the table, and a colour list exactly when [-v] is given
    and it is the value of some key. *)
Theorem listing_complete (e : Env) (args : Args.t) :
  truthy (Args.l args) = true ->
  Gif.main e args = Png.main e args
  /\ outcome (Png.main e args) = Returned
  /\ forallb isPrint (trace (Png.main e args)) = true
  /\ prints MAvailablePresets (Png.main e args)
  /\ (forall name,
        prints (MPresetName name) (Png.main e args) <-> is_Some (palettes e !! name))
  /\ (forall colors,
        prints (MPresetColors colors) (Png.main e args)
        <-> truthy (Args.v args) = true /\ exists name, palettes e !! name = Some colors).
Proof.
  intros T. unfold Gif.main, Png.main, prints.
  rewrite T, (gif_listing e args (VBool false) eq_refl). cbn [trace outcome].
  split; [reflexivity|]. split; [reflexivity|]. split.
  { cbn. induction (presetNames e) as [|name names IH]; [reflexivity|].
    cbn [flat_map]. destruct (truthy (Args.v args)); cbn; exact IH. }
  split; [left; reflexivity|]. split.
  - intros name. apply listing_names.
  - intros colors. apply listing_colors.
Qed.

Lemma listing_complete_witness :
  prints (MPresetName "gameboy") (Png.main sampleEnv (withList inputOnly))
  /\ Gif.main sampleEnv (withList (withSilent inputOnly))
     = Png.main sampleEnv (withList (withSilent inputOnly)).
Proof.
  destruct (listing_complete sampleEnv (withList inputOnly) eq_refl) as (_ & _ & _ & _ & N & _).
  destruct (listing_complete sampleEnv (withList (withSilent inputOnly)) eq_refl) as (E & _).
  split; [|exact E]. apply N. eexists. vm_compute. reflexivity.
Defined.

(** X14: when the guard takes [--preset] for unknown (the name is neither
    a key of the table nor a property name the table inherits),
    [src/index.js] lists the names of the table and never a colour list,
    even with [-v]; [src/unnamed/part_000] goes through [listPresets()], so
    unless [--silent] is given it lists the same names and, with [-v], the
    colour lists as well. *)
Theorem unknown_preset_listing (e : Env) (args : Args.t) :
  truthy (Args.preset args) = true ->
  palettes e !! toString e (Args.preset args) = None ->
  inherited (toString e (Args.preset args)) = false ->
  (forall name,
     prints (MPresetName name) (Png.dither e args) <-> is_Some (palettes e !! name))
  /\ (forall colors, ~ prints (MPresetColors colors) (Png.dither e args))
  /\ (truthy (Args.silent args) = false ->
      (forall name,
         prints (MPresetName name) (Gif.dither e args) <-> is_Some (palettes e !! name))
      /\ (forall colors,
            prints (MPresetColors colors) (Gif.dither e args)
            <-> truthy (Args.v args) = true
                /\ exists name, palettes e !! name = Some colors)).
Proof.
  intros T N H.
  assert (G : Gif.presetName args = Args.preset args)
    by (apply presetName_preset; left; exact T).
  rewrite (png_dither_unknown e args T N H).
  rewrite (gif_dither_unknown e args) by (rewrite G; assumption).
  unfold prints. cbn [trace]. split; [|split].
  - intros name. rewrite <- (listing_names e false name). cbn [In]. split.
    + intros [E|[E|I]]; try discriminate. right. exact I.
    + intros [E|I]; [discriminate|]. right. right. exact I.
  - intros colors [E|[E|I]]; try discriminate.
    apply in_map_iff in I as (name & E & _). discriminate.
  - intros S. rewrite gif_listing by (rewrite truthy_or_false; exact S).
    unfold Gif.status. rewrite truthy_or_false, S. split.
    + intros name. rewrite <- (listing_names e (truthy (Args.v args)) name).
      cbn [app In]. split; [intros [E|I]; [discriminate|exact I]|intros I; right; exact I].
    + intros colors. rewrite <- (listing_colors e (truthy (Args.v args)) colors).
      cbn [app In]. split; [intros [E|I]; [discriminate|exact I]|intros I; right; exact I].
Qed.

Lemma unknown_preset_listing_witness :
  ~ prints (MPresetColors ["#0f380f"; "#306230"; "#8bac0f"; "#9bbc0f"]%string)
      (Png.dither sampleEnv (withVerbose (withPreset "nosuch" inputOnly)))
  /\ prints (MPresetColors ["#0f380f"; "#306230"; "#8bac0f"; "#9bbc0f"]%string)
       (Gif.dither sampleEnv (withVerbose (withPreset "nosuch" inputOnly))).
Proof.
  destruct (unknown_preset_listing sampleEnv (withVerbose (withPreset "nosuch" inputOnly))
              eq_refl eq_refl eq_refl) as (_ & P & G).
  split; [apply P|]. apply (G eq_refl). split; [reflexivity|].
  exists "gameboy"%string. vm_compute. reflexivity.
Defined.

(** ** Inputs that cannot be used *)

(** X15: a truthy [-i] that is not a string (a number, or [true] for a bare
    [-i]) has no [length], so [dither()] neither prints nor reads nor
    writes anything and returns, once the guard and the palette expression
    are passed; the top level does not print the usage either. *)
Theorem non_string_input_ignored (e : Env) (args : Args.t) :
  truthy (Args.l args) = false -> truthy (Args.i args) = true ->
  (forall s, Args.i args <> VStr s) ->
  ((truthy (Args.preset args) = true ->
    is_Some (palettes e !! toString e (Args.preset args))) ->
   Png.selectPalette e args <> None ->
   Png.main e args = mkRun [] Returned)
  /\ ((truthy (Gif.presetName args) = true ->
       is_Some (palettes e !! toString e (Gif.presetName args))) ->
      Gif.selectPalette e args <> None ->
      Gif.main e args = mkRun [] Returned).
Proof.
  intros L T N.
  assert (J : js_or (Args.i args) (VStr "") = Args.i args)
    by (unfold js_or; rewrite T; reflexivity).
  split; intros K S.
  - unfold Png.main, Png.dither. rewrite L, T, (guard_passes e _ K), J.
    destruct (Png.selectPalette e args); [|contradiction].
    destruct (Args.i args) as [| | |s]; try reflexivity. exfalso. exact (N s eq_refl).
  - unfold Gif.main, Gif.dither. rewrite L, T, (guard_passes e _ K), J.
    destruct (Gif.selectPalette e args); [|contradiction].
    destruct (Args.i args) as [| | |s]; try reflexivity. exfalso. exact (N s eq_refl).
Qed.

Lemma non_string_input_ignored_witness :
  Png.main sampleEnv (withInput (VNum 5) inputOnly) = mkRun [] Returned.
Proof.
  refine (proj1 (non_string_input_ignored sampleEnv (withInput (VNum 5) inputOnly)
                   eq_refl eq_refl _) _ _); discriminate.
Defined.

(** X16: when the input file cannot be stat'ed, part_000 reports it (unless
    silent) and stops: it creates no canvas, builds no quantizer and writes
    nothing, even if the image could be loaded.  index.js reports it and
    goes on: if the image loads, the quantizer is still built. *)
Theorem unreadable_input (e : Env) (args : Args.t) (inputPath : string) :
  Args.i args = VStr inputPath -> statSync e inputPath = None ->
  forallb isPrint (trace (Gif.dither e args)) = true
  /\ (Gif.selectPalette e args <> None -> outcome (Gif.dither e args) = Returned)
  /\ (forall colors image,
        (truthy (Args.preset args) = true ->
         is_Some (palettes e !! toString e (Args.preset args))) ->
        Png.selectPalette e args = Some (Arr colors) ->
        inputPath <> EmptyString -> loadImage e inputPath = Some image ->
        prints (MCouldNotRead inputPath) (Png.dither e args)
        /\ quantizes (Png.dither e args) = true
        /\ usedPalette (Png.dither e args) = Some (map hexToRgb colors)).
Proof.
  intros I B. split; [|split].
  - unfold Gif.dither.
    destruct (truthy (Gif.presetName args) && unknownPreset e (Gif.presetName args)).
    { cbn [trace]. apply forallb_isPrint_app; [apply status_prints|apply listPresets_prints]. }
    destruct (Gif.selectPalette e args); [|reflexivity]. rewrite I.
    destruct (js_or (VStr inputPath) (VStr "")) as [| | |path] eqn:J; try reflexivity.
    assert (path = inputPath \/ path = EmptyString) as [->| ->].
    { unfold js_or in J. destruct (truthy (VStr inputPath)); injection J as <-; auto. }
    + destruct (String.length inputPath =? 0)%nat; [reflexivity|]. rewrite B.
      cbn [trace]. apply forallb_isPrint_app; apply status_prints.
    + reflexivity.
  - intros S. unfold Gif.dither.
    destruct (truthy (Gif.presetName args) && unknownPreset e (Gif.presetName args));
      [reflexivity|].
    destruct (Gif.selectPalette e args); [|contradiction]. rewrite I.
    destruct (js_or (VStr inputPath) (VStr "")) as [| | |path] eqn:J; try reflexivity.
    assert (path = inputPath \/ path = EmptyString) as [->| ->].
    { unfold js_or in J. destruct (truthy (VStr inputPath)); injection J as <-; auto. }
    + destruct (String.length inputPath =? 0)%nat; [reflexivity|]. rewrite B. reflexivity.
    + reflexivity.
  - intros colors image K S NI L.
    destruct (png_dither_reaches e args colors inputPath image (guard_passes e _ K) S I NI L)
      as (Q & U & _).
    split; [|split; assumption].
    unfold prints, Png.dither. rewrite (guard_passes e _ K), S, I.
    destruct (inputPath_given inputPath NI) as [-> ->]. rewrite L, B.
    cbn [trace]. right. left. reflexivity.
Qed.

Lemma unreadable_input_witness :
  forallb isPrint (trace (Gif.dither unreadableEnv inputOnly)) = true
  /\ quantizes (Png.dither unreadableEnv inputOnly) = true.
Proof.
  destruct (unreadable_input unreadableEnv inputOnly "in.png" eq_refl eq_refl) as (G & _ & P).
  split; [exact G|].
  destruct (P [] (sampleImage 26 13 338)) as (_ & Q & _);
    [discriminate|reflexivity|discriminate|reflexivity|exact Q].
Defined.

(** ** Dimensions that are zero *)

Lemma float_mul_nan (x : float) : (x * nan)%float = nan.
Proof.
  apply Prim2SF_inj. rewrite mul_spec.
  change (Prim2SF nan) with S754_nan.
  destruct (Prim2SF x) as [s|s| |s m e]; reflexivity.
Qed.

Lemma float_zero_div_zero (x : float) : PrimFloat.is_zero x = true -> (x / x)%float = nan.
Proof.
  unfold PrimFloat.is_zero. rewrite FloatAxioms.eqb_spec.
  change (Prim2SF zero) with (S754_zero false). intros Z.
  apply Prim2SF_inj. rewrite div_spec. change (Prim2SF nan) with S754_nan.
  destruct (Prim2SF x) as [s|s| |s m e]; try reflexivity;
    cbn in Z; try discriminate; destruct s; discriminate.
Qed.

Lemma Math_min_nan (x : float) : Math_min nan x = nan /\ Math_min x nan = nan.
Proof.
  unfold Math_min. split; [reflexivity|].
  change (PrimFloat.is_nan nan) with true. rewrite orb_true_r. reflexivity.
Qed.

Lemma canvasSize_zero e args image :
  truthy (js_or (Args.s args) (Args.scale args)) = false ->
  PrimFloat.is_zero (Image.width image) = true
  \/ PrimFloat.is_zero (Image.height image) = true ->
  canvasSize e args image = (nan, nan).
Proof.
  intros S Z. unfold canvasSize, scaledSize.
  assert (J : forall v, js_or (js_or (Args.s args) (Args.scale args)) v = v)
    by (intros v; unfold js_or at 1; rewrite S; reflexivity).
  rewrite !J. cbn [toNumber ndiv nmul nmin float_arith].
  destruct Z as [Z|Z]; rewrite (float_zero_div_zero _ Z).
  - rewrite (proj1 (Math_min_nan _)), !float_mul_nan. reflexivity.
  - rewrite (proj2 (Math_min_nan _)), !float_mul_nan. reflexivity.
Qed.

(** X17: an image whose width or height is zero is not rejected: without a
    scale the ratio is 0/0 and both sides computed for the canvas are NaN;
    with a loadable input and an array palette, [createCanvas] is called
    with them. *)
Theorem zero_dimension_canvas (e : Env) (args : Args.t) (image : Image.t) :
  truthy (js_or (Args.s args) (Args.scale args)) = false ->
  PrimFloat.is_zero (Image.width image) = true
  \/ PrimFloat.is_zero (Image.height image) = true ->
  canvasSize e args image = (nan, nan)
  /\ (forall colors inputPath,
        (truthy (Args.preset args) = true ->
         is_Some (palettes e !! toString e (Args.preset args))) ->
        Png.selectPalette e args = Some (Arr colors) ->
        Args.i args = VStr inputPath -> inputPath <> EmptyString ->
        loadImage e inputPath = Some image ->
        canvasOf (Png.dither e args) = Some (nan, nan)).
Proof.
  intros S Z. pose proof (canvasSize_zero e args image S Z) as C.
  split; [exact C|]. intros colors inputPath K P I NI L.
  destruct (png_dither_reaches e args colors inputPath image (guard_passes e _ K) P I NI L)
    as (_ & _ & V & _).
  rewrite V, C. reflexivity.
Qed.

Lemma zero_dimension_canvas_witness :
  canvasSize sampleEnv inputOnly (sampleImage 26 0 0) = (nan, nan).
Proof.
  refine (proj1 (zero_dimension_canvas sampleEnv inputOnly (sampleImage 26 0 0) eq_refl _)).
  right. reflexivity.
Defined.

(** ** The two entry points on the same arguments *)







(** ** Names the table inherits *)

Lemma guard_inherited e name :
  inherited (toString e name) = true -> truthy name && unknownPreset e name = false.
Proof.
  intros H. rewrite (unknownPreset_inherited e name H). apply andb_false_r.
Qed.

Lemma andLookup_inherited e name :
  truthy name = true -> palettes e !! toString e name = None ->
  inherited (toString e name) = true ->
  andLookup e name = Member (toString e name).
Proof. intros T N H. unfold andLookup, getPreset. rewrite T, N, H. reflexivity. Qed.

(** X19: a [--preset] that is no key of the table but one of the property
    names the table inherits from [Object.prototype] ([constructor],
    [toString], ...) is not taken for unknown: the guard is passed.  With
    an explicit list the list is used; without one the inherited member
    becomes the palette, and the run creates the canvas and then fails on
    [palette.map], building no quantizer. *)
Theorem inherited_name_passes_guard (e : Env) (args : Args.t) (inputPath : string)
    (image : Image.t) :
  truthy (Args.preset args) = true ->
  palettes e !! toString e (Args.preset args) = None ->
  inherited (toString e (Args.preset args)) = true ->
  Args.i args = VStr inputPath -> inputPath <> EmptyString ->
  loadImage e inputPath = Some image ->
  (forall s, Args.palette args = VStr s -> s <> EmptyString ->
     Png.paletteChoice e args = Chosen (Arr (split "," s))
     /\ Gif.paletteChoice e args = Chosen (Arr (split "," s))
     /\ usedPalette (Png.dither e args) = Some (map hexToRgb (split "," s))
     /\ (is_Some (statSync e inputPath) ->
         usedPalette (Gif.dither e args) = Some (map hexToRgb (split "," s))))
  /\ (Args.palette args = VUndefined ->
      Png.paletteChoice e args = Chosen (Member (toString e (Args.preset args)))
      /\ Gif.paletteChoice e args = Chosen (Member (toString e (Args.preset args)))
      /\ Png.dither e args
         = mkRun [Log (MDithering inputPath);
                  Log (match statSync e inputPath with
                       | Some bytes => MInputSize bytes
                       | None => MCouldNotRead inputPath
                       end);
                  CreateCanvas (fst (canvasSize e args image))
                               (snd (canvasSize e args image))]
                 (Thrown "palette.map is not a function")
      /\ (is_Some (statSync e inputPath) ->
          outcome (Gif.dither e args) = Thrown "palette.map is not a function"
          /\ canvasOf (Gif.dither e args) = Some (canvasSize e args image)
          /\ quantizes (Gif.dither e args) = false)).
Proof.
  intros T N H I NI L.
  assert (G : Gif.presetName args = Args.preset args)
    by (apply presetName_preset; left; exact T).
  pose proof (guard_inherited e (Args.preset args) H) as GP.
  split.
  - intros s P NS.
    assert (SP : Png.selectPalette e args = Some (Arr (split "," s)))
      by (unfold Png.selectPalette; rewrite P, (andSplit_explicit s NS); reflexivity).
    assert (SG : Gif.selectPalette e args = Some (Arr (split "," s)))
      by (unfold Gif.selectPalette; rewrite P, (andSplit_explicit s NS); reflexivity).
    split; [unfold Png.paletteChoice; rewrite GP, SP; reflexivity|].
    split; [unfold Gif.paletteChoice; rewrite G, GP, SG; reflexivity|].
    split.
    + apply (png_dither_reaches e args (split "," s) inputPath image GP SP I NI L).
    + intros B.
      apply (gif_dither_reaches e args (split "," s) inputPath image);
        try assumption. rewrite G. exact GP.
  - intros P.
    assert (SP : Png.selectPalette e args = Some (Member (toString e (Args.preset args))))
      by (unfold Png.selectPalette;
          rewrite P, andSplit_undefined, (andLookup_inherited e _ T N H); reflexivity).
    assert (SG : Gif.selectPalette e args = Some (Member (toString e (Args.preset args))))
      by (unfold Gif.selectPalette;
          rewrite P, G, andSplit_undefined, (andLookup_inherited e _ T N H); reflexivity).
    split; [unfold Png.paletteChoice; rewrite GP, SP; reflexivity|].
    split; [unfold Gif.paletteChoice; rewrite G, GP, SG; reflexivity|].
    split.
    + unfold Png.dither. rewrite GP, SP, I.
      destruct (inputPath_given inputPath NI) as [-> ->]. rewrite L.
      unfold Png.onImage. destruct (canvasSize e args image) as [w h]. reflexivity.
    + intros [inputBytes B]. unfold Gif.dither. rewrite G, GP, SG, I.
      destruct (inputPath_given inputPath NI) as [-> ->]. rewrite B, L.
      unfold Gif.onImage. destruct (canvasSize e args image) as [w h].
      cbn [trace outcome]. split; [reflexivity|].
      destruct (prints_then
                  (Gif.status (js_or (Args.silent args) (VBool false)) (MDithering inputPath)
                   ++ Gif.status (js_or (Args.silent args) (VBool false))
                        (MInputSize inputBytes))
                  [CreateCanvas w h] (Thrown "palette.map is not a function"))
        as (Q & _ & _ & C).
      { apply forallb_isPrint_app; apply status_prints. }
      rewrite Q, C. split; reflexivity.
Qed.

Lemma inherited_name_passes_guard_witness :
  usedPalette (Png.dither sampleEnv
                 (withPalette "#000000,#ffffff" (withPreset "constructor" inputOnly)))
  = Some [Some [Int 0; Int 0; Int 0]; Some [Int 255; Int 255; Int 255]]
  /\ outcome (Gif.dither sampleEnv (withPreset "toString" inputOnly))
     = Thrown "palette.map is not a function".
Proof.
  split.
  - destruct (proj1 (inherited_name_passes_guard sampleEnv
                       (withPalette "#000000,#ffffff" (withPreset "constructor" inputOnly))
                       "in.png" (sampleImage 26 13 338)
                       eq_refl eq_refl eq_refl eq_refl ltac:(discriminate) eq_refl)
                    "#000000,#ffffff"%string eq_refl ltac:(discriminate)) as (_ & _ & U & _).
    exact U.
  - destruct (proj2 (inherited_name_passes_guard sampleEnv
                       (withPreset "toString" inputOnly)
                       "in.png" (sampleImage 26 13 338)
                       eq_refl eq_refl eq_refl eq_refl ltac:(discriminate) eq_refl)
                    eq_refl) as (_ & _ & _ & O).
    apply O. eexists. reflexivity.
Defined.

(** ** An output that cannot be written *)

Lemma runCase_unwritable e args suffix r :
  runCase e args suffix r ->
  (forall inputPath,
     Args.i args = VStr inputPath ->
     writable e (js_or (Args.o args) (VStr (inputPath +:+ suffix))) = false) ->
  writes r = false.
Proof.
  intros C U.
  destruct (writes r) eqn:W; [|reflexivity].
  destruct (runCase_orderly e args suffix r C) as (_ & L & _).
  destruct C as [Q | logs inputPath image P I L' T O
                   | logs inputPath image colors P I L' T O
                   | logs inputPath image colors P I L' F T O
                   | logs logs' inputPath image colors result P P' I N L' F T O].
  - destruct (quiet_run r Q) as (_ & X & _). congruence.
  - destruct (observers_trace r (mkRun (logs ++ [CreateCanvas
                 (fst (canvasSize e args image)) (snd (canvasSize e args image))] ++ [])
                 Returned)) as (_ & _ & E & _); [exact T|].
    destruct (prints_around logs [CreateCanvas
                 (fst (canvasSize e args image)) (snd (canvasSize e args image))] []
                 P eq_refl) as (_ & _ & X & _).
    rewrite E, X in W. discriminate W.
  - destruct (observers_trace r (mkRun (logs ++ [CreateCanvas
                 (fst (canvasSize e args image)) (snd (canvasSize e args image));
                 NewRgbQuant (optionsFor args colors)] ++ [])
                 Returned)) as (_ & _ & E & _); [exact T|].
    destruct (prints_around logs [CreateCanvas
                 (fst (canvasSize e args image)) (snd (canvasSize e args image));
                 NewRgbQuant (optionsFor args colors)] []
                 P eq_refl) as (_ & _ & X & _).
    rewrite E, X in W. discriminate W.
  - destruct (observers_trace r (mkRun (logs ++ [CreateCanvas
                 (fst (canvasSize e args image)) (snd (canvasSize e args image));
                 NewRgbQuant (optionsFor args colors); Reduce] ++ [])
                 Returned)) as (_ & _ & E & _); [exact T|].
    destruct (prints_around logs [CreateCanvas
                 (fst (canvasSize e args image)) (snd (canvasSize e args image));
                 NewRgbQuant (optionsFor args colors); Reduce] []
                 P eq_refl) as (_ & _ & X & _).
    rewrite E, X in W. discriminate W.
  - rewrite (U inputPath I) in F. discriminate F.
Qed.

(** X20: when the output cannot be written at the path the run would use,
    as is always so for a bare [-o] (its value [true] is no path), neither
    entry point writes an image, and a run whose quantizer returned ends on
    the failed write instead of returning. *)
Theorem unwritable_output (e : Env) (args : Args.t) :
  (Args.o args = VBool true ->
   forall inputPath suffix,
     writable e (js_or (Args.o args) (VStr (inputPath +:+ suffix))) = false)
  /\ ((forall inputPath,
         Args.i args = VStr inputPath ->
         writable e (js_or (Args.o args) (VStr (inputPath +:+ "-dither.png"))) = false) ->
      writes (Png.dither e args) = false
      /\ (dithers (Png.dither e args) = true ->
          outcome (Png.dither e args) = Thrown "write"))
  /\ ((forall inputPath,
         Args.i args = VStr inputPath ->
         writable e (js_or (Args.o args) (VStr (inputPath +:+ "-dither.gif"))) = false) ->
      writes (Gif.dither e args) = false
      /\ (dithers (Gif.dither e args) = true ->
          outcome (Gif.dither e args) = Thrown "write")).
Proof.
  split; [intros -> inputPath suffix; reflexivity|].
  split; intros U.
  - pose proof (runCase_unwritable e args _ _ (png_dither_runCase e args) U) as W.
    split; [exact W|]. intros D.
    destruct (runCase_orderly _ _ _ _ (png_dither_runCase e args)) as (_ & _ & _ & F & _).
    exact (F D W).
  - pose proof (runCase_unwritable e args _ _ (gif_dither_runCase e args) U) as W.
    split; [exact W|]. intros D.
    destruct (runCase_orderly _ _ _ _ (gif_dither_runCase e args)) as (_ & _ & _ & F & _).
    exact (F D W).
Qed.

Lemma unwritable_output_witness :
  writes (Png.dither sampleEnv (withOutput (VBool true) inputOnly)) = false
  /\ outcome (Gif.dither sampleEnv (withOutput (VBool true) inputOnly)) = Thrown "write".
Proof.
  destruct (unwritable_output sampleEnv (withOutput (VBool true) inputOnly)) as (B & P & G).
  split.
  - apply P. intros inputPath _. apply (B eq_refl).
  - apply G; [intros inputPath _; apply (B eq_refl)|reflexivity].
Defined.
